(** * cyipopt.scipy_interface: the SciPy-style front end of cyipopt

    A shallow embedding of [src/cyipopt/scipy_interface.py]: the adapter class
    [IpoptProblemWrapper], the probes that size and structure a problem
    ([get_constraint_bounds], [get_constraint_dimensions],
    [_get_sparse_jacobian_structure]), the option helpers and
    [minimize_ipopt].

    Conventions of the embedding.
    - Python floats and float64 array entries are Rocq's primitive binary64
      floats; no theorem below relies on an algebraic law of float arithmetic.
    - A function that may raise returns a [result]; the exception classes are
      the constructors of [exn].
    - User callables ([fun], [jac], [hess] of the objective and of each
      constraint) are total, side-effect free Rocq functions.
    - The module is embedded as it runs when SciPy imports
      ([SCIPY_INSTALLED] is [True]).
    - [Unsupported] is not a Python exception: it marks the two places where
      NumPy goes on with an ill-typed operand (a buffer or an object array)
      and the embedding stops. No theorem below is about such a run. *)

From Stdlib Require Import String.
From Stdlib Require Import List Bool Arith Lia ZArith.
From Stdlib Require Import Floats.PrimFloat.
Import ListNotations.

(** ** Exceptions and fallible results *)

Inductive exn : Type :=
| ImportError (msg : string)
| NotImplementedError (msg : string)
| ValueError (msg : string)
| TypeError (msg : string)
| IndexError (msg : string)
| NameError (msg : string)
| Unsupported (what : string).

Inductive result (A : Type) : Type :=
| Ok (a : A)
| Raise (e : exn).

Arguments Ok {A} a.
Arguments Raise {A} e.

Definition rbind {A B : Type} (r : result A) (k : A -> result B) : result B :=
  match r with
  | Ok a => k a
  | Raise e => Raise e
  end.

Declare Scope result_scope.
Delimit Scope result_scope with result.
Notation "x <- r ;; k" := (rbind r (fun x => k))
  (at level 61, r at next level, right associativity) : result_scope.

(** ** The part of NumPy the module uses *)

Module np.

(** What a constraint function returns, and what [x0] may be: a Python
    number or 0-d array, or a 1-d array. *)
Inductive value : Type :=
| Scalar (v : float)
| Vector (l : list float).

(** A dense array of up to two dimensions (a Jacobian, a gradient); a 2-d
    array is the list of its rows. *)
Inductive ndarray : Type :=
| Array0 (v : float)
| Array1 (l : list float)
| Array2 (rows : list (list float)).

Definition atleast_1d (a : value) : list float :=
  match a with
  | Scalar v => [v]
  | Vector l => l
  end.

Definition atleast_2d (a : ndarray) : list (list float) :=
  match a with
  | Array0 v => [[v]]
  | Array1 l => [l]
  | Array2 rows => rows
  end.

Definition zeros (m : nat) : list float := repeat 0%float m.
Definition ones (m : nat) : list float := repeat 1%float m.

(** [np.ones((p, n))] *)
Definition ones2 (p n : nat) : list (list float) := repeat (ones n) p.

Definition ones_like (rows : list (list float)) : list (list float) :=
  map (map (fun _ => 1%float)) rows.

(** [a.ravel()] of a 2-d array: row-major (C order) flattening. *)
Definition ravel (rows : list (list float)) : list float := concat rows.

(** [a.shape[1]] of a 2-d array; an array without rows is taken to have no
    columns. *)
Definition ncols (rows : list (list float)) : nat :=
  match rows with
  | [] => 0
  | r :: _ => length r
  end.

(** [np.hstack(tup)] of numbers and 1-d arrays:
    [np.concatenate(np.atleast_1d( *tup ))], and [np.concatenate] refuses an
    empty sequence. *)
Definition hstack (tup : list value) : result (list float) :=
  match map atleast_1d tup with
  | [] => Raise (ValueError "need at least one array to concatenate")
  | arrs => Ok (concat arrs)
  end.

Fixpoint cumsum_from (acc : nat) (l : list nat) : list nat :=
  match l with
  | [] => []
  | a :: rest => (acc + a) :: cumsum_from (acc + a) rest
  end.

Definition cumsum (l : list nat) : list nat := cumsum_from 0 l.

(** The Python slice [ary[st:en]] for indices that are not negative. *)
Definition slice {A : Type} (st en : nat) (ary : list A) : list A :=
  firstn (en - st) (skipn st ary).

Fixpoint split_from {A : Type} (ary : list A) (st : nat) (indices : list nat)
  : list (list A) :=
  match indices with
  | [] => [skipn st ary]
  | en :: rest => slice st en ary :: split_from ary en rest
  end.

(** [np.split(ary, indices)]: the pieces [ary[0:i1]], [ary[i1:i2]], ...,
    [ary[ik:]]. *)
Definition split {A : Type} (ary : list A) (indices : list nat)
  : list (list A) :=
  split_from ary 0 indices.

(** [np.tril_indices(n)], as the list of (row, column) pairs: the lower
    triangle in row-major order. *)
Definition tril_indices (n : nat) : list (nat * nat) :=
  flat_map (fun i => map (fun j => (i, j)) (seq 0 (S i))) (seq 0 n).

Definition getitem2 (H : list (list float)) (ij : nat * nat) : result float :=
  match nth_error H (fst ij) with
  | None => Raise (IndexError "index out of bounds for axis 0")
  | Some r =>
      match nth_error r (snd ij) with
      | None => Raise (IndexError "index out of bounds for axis 1")
      | Some v => Ok v
      end
  end.

(** [H[idx]] for a pair of index arrays: one entry per index pair. *)
Fixpoint take (H : list (list float)) (idx : list (nat * nat))
  : result (list float) :=
  match idx with
  | [] => Ok []
  | ij :: rest =>
      (v <- getitem2 H ij ;;
       vs <- take H rest ;;
       Ok (v :: vs))%result
  end.

(** [c * H] for a scalar [c]. *)
Definition scale (c : float) (H : list (list float)) : list (list float) :=
  map (map (fun v => (c * v)%float)) H.

(** Broadcasting of a 2-d operand to [r] rows of [c] columns: an axis of
    length one is repeated, any other length must match. *)
Definition broadcast_row (c : nat) (row : list float) : option (list float) :=
  if length row =? c then Some row
  else match row with
       | [v] => Some (repeat v c)
       | _ => None
       end.

Fixpoint broadcast_rows (c : nat) (G : list (list float))
  : option (list (list float)) :=
  match G with
  | [] => Some []
  | row :: rest =>
      match broadcast_row c row, broadcast_rows c rest with
      | Some row', Some rest' => Some (row' :: rest')
      | _, _ => None
      end
  end.

Definition broadcast_to (r c : nat) (G : list (list float))
  : option (list (list float)) :=
  match broadcast_rows c G with
  | None => None
  | Some G' =>
      if length G' =? r then Some G'
      else match G' with
           | [row] => Some (repeat row r)
           | _ => None
           end
  end.

Fixpoint add_rows (a b : list float) : list float :=
  match a, b with
  | x :: a', y :: b' => (x + y)%float :: add_rows a' b'
  | _, _ => []
  end.

Fixpoint add (H G : list (list float)) : list (list float) :=
  match H, G with
  | h :: H', g :: G' => add_rows h g :: add H' G'
  | _, _ => []
  end.

(** [H += G] on 2-d arrays: [G] is broadcast to the shape of [H]. *)
Definition iadd (H G : list (list float)) : result (list (list float)) :=
  match broadcast_to (length H) (ncols H) G with
  | Some G' => Ok (add H G')
  | None => Raise (ValueError "operands could not be broadcast together")
  end.

End np.

(** ** The part of scipy.sparse the module uses *)

Module sparse.

(** A [coo_array]: the shape and the three parallel arrays of the
    coordinate format. *)
Record coo_array : Type := {
  shape : nat * nat;
  row : list nat;
  col : list nat;
  data : list float
}.

(** The stored entries of row [i] of a dense array, from column [j] on:
    the entries that differ from zero, left to right. *)
Fixpoint nonzero_row (i j : nat) (r : list float) : list (nat * nat * float) :=
  match r with
  | [] => []
  | v :: rest =>
      (if (v =? 0)%float then [] else [(i, j, v)]) ++ nonzero_row i (S j) rest
  end.

Fixpoint nonzero_rows (i : nat) (rows : list (list float))
  : list (nat * nat * float) :=
  match rows with
  | [] => []
  | r :: rest => nonzero_row i 0 r ++ nonzero_rows (S i) rest
  end.

(** [coo_array(M)] for a dense 2-d array [M]: its nonzero entries in
    row-major order. *)
Definition of_dense (rows : list (list float)) : coo_array :=
  let entries := nonzero_rows 0 rows in
  {| shape := (length rows, np.ncols rows);
     row := map (fun e => fst (fst e)) entries;
     col := map (fun e => snd (fst e)) entries;
     data := map snd entries |}.

(** The loop of [scipy.sparse.bmat] over one column of blocks: each block's
    coordinates are appended in block order, rows shifted by the rows of the
    blocks above; a block whose column count differs from the one recorded
    is refused. [off] is the row offset and [bcol] the recorded column count
    (0 while none is recorded). *)
Fixpoint vstack_from (off bcol : nat) (rows cols : list nat) (vals : list float)
  (blocks : list coo_array) : result coo_array :=
  match blocks with
  | [] => Ok {| shape := (off, bcol); row := rows; col := cols; data := vals |}
  | A :: rest =>
      if (negb (bcol =? 0)) && negb (bcol =? snd (shape A))
      then Raise (ValueError "blocks[:,0] has incompatible column dimensions")
      else vstack_from (off + fst (shape A))
                       (if bcol =? 0 then snd (shape A) else bcol)
                       (rows ++ map (fun r => r + off) (row A))
                       (cols ++ col A)
                       (vals ++ data A)
                       rest
  end.

(** [scipy.sparse.vstack(blocks)] for blocks in coordinate format. *)
Definition vstack (blocks : list coo_array) : result coo_array :=
  match blocks with
  | [] => Raise (ValueError "blocks must be 2-D")
  | _ => vstack_from 0 0 [] [] [] blocks
  end.

End sparse.

(** ** Python dictionaries of solver options *)

(** An option name is a [str] or a [bytes] object; a [str] is kept as its
    UTF-8 encoding, so [bytes(key, 'utf-8')] keeps the characters and changes
    the tag. *)
Inductive okey : Type :=
| Str (s : string)
| Bytes (s : string).

Definition okey_eqb (a b : okey) : bool :=
  match a, b with
  | Str s, Str t => String.eqb s t
  | Bytes s, Bytes t => String.eqb s t
  | _, _ => false
  end.

(** The option values the module itself writes or inspects. *)
Inductive pyval : Type :=
| PyInt (z : Z)
| PyFloat (f : float)
| PyBytes (s : string)
| PyStr (s : string).

(** A [dict] in insertion order. *)
Definition dict : Type := list (okey * pyval).

Definition dict_in (k : okey) (d : dict) : bool :=
  existsb (fun kv => okey_eqb k (fst kv)) d.

Definition dict_get (k : okey) (d : dict) : option pyval :=
  match find (fun kv => okey_eqb k (fst kv)) d with
  | Some kv => Some (snd kv)
  | None => None
  end.

(** [d[k] = v]: an existing key keeps its place, a new one goes last. *)
Definition dict_set (k : okey) (v : pyval) (d : dict) : dict :=
  if dict_in k d
  then map (fun kv => if okey_eqb k (fst kv) then (k, v) else kv) d
  else d ++ [(k, v)].

(** [d.pop(k)], the dictionary that is left. *)
Definition dict_pop (k : okey) (d : dict) : dict :=
  filter (fun kv => negb (okey_eqb k (fst kv))) d.

Definition replace_option (options : dict) (oldname newname : okey) : dict :=
  match dict_get oldname options with
  | Some v =>
      if dict_in newname options then options
      else dict_set newname v (dict_pop oldname options)
  | None => options
  end.

(** On Python 3: every [str] key is replaced by its [bytes] form;
    [bytes(key, 'utf-8')] of a [bytes] key raises the [TypeError] that is
    passed over. The keys are visited in the order of [list(options.keys())]
    taken before the loop. *)
Definition convert_key (options : dict) (key : okey) : dict :=
  match key with
  | Str s =>
      match dict_get (Str s) options with
      | Some v => dict_pop (Str s) (dict_set (Bytes s) v options)
      | None => options
      end
  | Bytes _ => options
  end.

Definition convert_to_bytes (options : dict) : dict :=
  fold_left convert_key (map fst options) options.

(** ** Problem descriptions *)

(** What a constraint's Jacobian evaluator returns: a dense array or a
    [coo_array]. *)
Inductive jac_value : Type :=
| Dense (a : np.ndarray)
| Sparse (c : sparse.coo_array).

(** The ['jac'] entry next to a function that returns values only: missing or
    [None], [False], a callable, or any other object (with its truth value).
    ['jac': True] changes what the function itself returns and is a
    constructor of the evaluator types below. *)
Inductive jac_key (F : Type) : Type :=
| JacNone
| JacFalse
| JacFun (f : F)
| JacObject (truthy : bool).

Arguments JacNone {F}.
Arguments JacFalse {F}.
Arguments JacFun {F} f.
Arguments JacObject {F} truthy.

(** The module-level flag set by the guarded [import scipy]. *)
Definition SCIPY_INSTALLED : bool := true.

(** The default of [get_constraint_bounds]'s [INF]. *)
Definition INF_default : float := 1e19%float.

(** The float that the literal [1e-8] denotes. *)
Definition float_1e_8 : float := 0x1.5798ee2308c3ap-27%float.

Section Interface.

(** Extra positional and keyword arguments are Python objects the module
    only passes on. *)
Variable Arg : Type.

(** [scipy.optimize.approx_fprime(xk, f, epsilon)]. *)
Variable approx_fprime :
  list float -> (list float -> np.value) -> float -> np.ndarray.

Definition kw : Type := list (string * Arg).

(** The objective: [fun] with its [jac] entry, or, for [jac=True], a [fun]
    that returns the value and the gradient together. *)
Inductive objective_fun : Type :=
| Fun (f : list float -> list Arg -> kw -> float)
      (jac : jac_key (list float -> list Arg -> kw -> np.ndarray))
| FunWithGrad (f : list float -> list Arg -> kw -> float * np.ndarray).

(** The ['fun'] and ['jac'] entries of a constraint dictionary. *)
Inductive con_evaluator : Type :=
| ConFun (f : list float -> list Arg -> np.value)
         (jac : jac_key (list float -> list Arg -> jac_value))
| ConFunWithJac (f : list float -> list Arg -> np.value * jac_value).

Definition hess_fun : Type :=
  list float -> list float -> list Arg -> list (list float).

(** A constraint dictionary: ['fun'] and ['jac'], ['args'] ([[]] when
    missing), ['hess'] ([None] when missing), ['kwargs'], ['type']. *)
Record constraint : Type := {
  con_eval : con_evaluator;
  con_args : list Arg;
  con_hess : option hess_fun;
  con_kwargs : kw;
  con_type : string
}.

(** The [constraints] argument: one dictionary or a sequence of them. *)
Inductive constraints_arg : Type :=
| OneDict (con : constraint)
| Sequence (cs : list constraint).

(** [if isinstance(constraints, dict): constraints = (constraints, )] *)
Definition as_tuple (constraints : constraints_arg) : list constraint :=
  match constraints with
  | OneDict con => [con]
  | Sequence cs => cs
  end.

(** *** The probes, with the calls they make

    The probes run in a monad that logs every call of a constraint's
    function or Jacobian evaluator: which group (its position in the
    sequence), and at which point. *)

Inductive event : Type :=
| CallFun (i : nat) (x : list float)
| CallJac (i : nat) (x : list float).

Definition M (A : Type) : Type := list event -> result A * list event.

Definition ret {A : Type} (a : A) : M A := fun tr => (Ok a, tr).

Definition raise {A : Type} (e : exn) : M A := fun tr => (Raise e, tr).

Definition bind {A B : Type} (m : M A) (k : A -> M B) : M B :=
  fun tr =>
    match m tr with
    | (Ok a, tr') => k a tr'
    | (Raise e, tr') => (Raise e, tr')
    end.

(** A call that returns [v], logged as [ev]. *)
Definition call {A : Type} (ev : event) (v : A) : M A :=
  fun tr => (Ok v, tr ++ [ev]).

Definition lift {A : Type} (r : result A) : M A := fun tr => (r, tr).

Definition run {A : Type} (m : M A) : result A * list event := m [].

Declare Scope trace_scope.
Delimit Scope trace_scope with M.
Notation "x <- m ;; k" := (bind m (fun x => k))
  (at level 61, m at next level, right associativity) : trace_scope.

(** [len(np.atleast_1d(con['fun'](x0, *con.get('args', []))[0]))] when
    ['jac'] is [True], and the same without [[0]] otherwise: the branch
    shared by [get_constraint_dimensions] and [get_constraint_bounds]. *)
Definition probe_dimension (i : nat) (con : constraint) (x0 : list float)
  : M nat :=
  match con_eval con with
  | ConFunWithJac f =>
      (r <- call (CallFun i x0) (f x0 (con_args con)) ;;
       ret (length (np.atleast_1d (fst r))))%M
  | ConFun f _ =>
      (r <- call (CallFun i x0) (f x0 (con_args con)) ;;
       ret (length (np.atleast_1d r)))%M
  end.

(** The loop of [get_constraint_dimensions]; [i] is the position of the
    group at the head of [cs]. *)
Fixpoint get_constraint_dimensions_loop (i : nat) (cs : list constraint)
  (x0 : list float) (con_dims : list nat) : M (list nat) :=
  match cs with
  | [] => ret con_dims
  | con :: rest =>
      (m <- probe_dimension i con x0 ;;
       get_constraint_dimensions_loop (S i) rest x0 (con_dims ++ [m]))%M
  end.

Definition get_constraint_dimensions (constraints : constraints_arg)
  (x0 : list float) : M (list nat) :=
  get_constraint_dimensions_loop 0 (as_tuple constraints) x0 [].

(** The loop of [get_constraint_bounds]. *)
Fixpoint get_constraint_bounds_loop (i : nat) (cs : list constraint)
  (x0 : list float) (INF : float) (cl cu : list float)
  : M (list float * list float) :=
  match cs with
  | [] => ret (cl, cu)
  | con :: rest =>
      (m <- probe_dimension i con x0 ;;
       let cl := cl ++ np.zeros m in
       if String.eqb (con_type con) "eq"
       then get_constraint_bounds_loop (S i) rest x0 INF cl (cu ++ np.zeros m)
       else if String.eqb (con_type con) "ineq"
       then get_constraint_bounds_loop (S i) rest x0 INF cl
              (cu ++ map (fun o => (INF * o)%float) (np.ones m))
       else raise (ValueError (con_type con)))%M
  end.

Definition get_constraint_bounds (constraints : constraints_arg)
  (x0 : list float) (INF : float) : M (list float * list float) :=
  get_constraint_bounds_loop 0 (as_tuple constraints) x0 INF [] [].

(** One turn of the loop of [_get_sparse_jacobian_structure]: the block of
    the group and its "is sparse" flag. *)
Definition jacobian_block (i : nat) (con : constraint) (x0 : list float)
  : M (sparse.coo_array * bool) :=
  let of_jac_val (jac_val : jac_value) :=
    match jac_val with
    | Sparse c => (c, true)
    | Dense a => (sparse.of_dense (np.ones_like (np.atleast_2d a)), false)
    end in
  let approximated (f : list float -> list Arg -> np.value) :=
    (con_val <- call (CallFun i x0) (f x0 (con_args con)) ;;
     ret (sparse.of_dense
            (np.ones2 (length (np.atleast_1d con_val)) (length x0)),
          false))%M in
  match con_eval con with
  | ConFunWithJac f =>
      (r <- call (CallFun i x0) (f x0 (con_args con)) ;;
       ret (of_jac_val (snd r)))%M
  | ConFun f (JacFun con_jac) =>
      (jac_val <- call (CallJac i x0) (con_jac x0 (con_args con)) ;;
       ret (of_jac_val jac_val))%M
  | ConFun f (JacObject true) =>
      raise (TypeError "object is not callable")
  | ConFun f (JacObject false) => approximated f
  | ConFun f JacNone => approximated f
  | ConFun f JacFalse => approximated f
  end.

Fixpoint jacobian_blocks (i : nat) (cs : list constraint) (x0 : list float)
  (con_jac_is_sparse : list bool) (jacobians : list sparse.coo_array)
  : M (list bool * list sparse.coo_array) :=
  match cs with
  | [] => ret (con_jac_is_sparse, jacobians)
  | con :: rest =>
      (b <- jacobian_block i con x0 ;;
       jacobian_blocks (S i) rest x0
         (con_jac_is_sparse ++ [snd b]) (jacobians ++ [fst b]))%M
  end.

Definition _get_sparse_jacobian_structure (constraints : constraints_arg)
  (x0 : list float) : M (list bool * list nat * list nat) :=
  match as_tuple constraints with
  | [] => ret ([], [], [])
  | cs =>
      (bj <- jacobian_blocks 0 cs x0 [] [] ;;
       J <- lift (sparse.vstack (snd bj)) ;;
       ret (fst bj, sparse.row J, sparse.col J))%M
  end.

(** [get_bounds]. *)
Definition get_bounds (bounds : option (list (float * float)))
  : option (list float) * option (list float) :=
  match bounds with
  | None => (None, None)
  | Some bs => (Some (map fst bs), Some (map snd bs))
  end.

(** *** The adapter *)

(** An entry of [_constraint_jacs]: the lambda around [approx_fprime]
    (whose [con_fun] and [eps] are variables of [__init__], read when the
    lambda is called), the [derivative] method of a [MemoizeJac], or the
    caller's function. *)
Inductive jac_closure : Type :=
| ApproxFprime
| Derivative (f : list float -> list Arg -> np.value * jac_value)
| Callable (con_jac : list float -> list Arg -> jac_value).

(** The attributes of an [IpoptProblemWrapper]; [con_fun] and [eps] are the
    variables of [__init__] that the lambdas of [_constraint_jacs] close
    over. *)
Record IpoptProblemWrapper : Type := {
  obj_hess : option (list float -> list (list float));
  last_x : option (list float);
  fun_ : list float -> list Arg -> kw -> float;
  jac : list float -> list Arg -> kw -> np.ndarray;
  args : list Arg;
  kwargs : kw;
  _constraint_funs : list (list float -> list Arg -> np.value);
  _constraint_jacs : list jac_closure;
  _constraint_hessians : list (option hess_fun);
  _constraint_dims : list nat;
  _constraint_args : list (list Arg);
  _constraint_kwargs : list kw;
  _constraint_jac_is_sparse : list bool;
  _constraint_jacobian_structure : list nat * list nat;
  con_fun : option (list float -> list Arg -> np.value);
  eps : float;
  nfev : Z;
  njev : Z;
  nit : Z
}.

(** The five [append]s at the end of a turn of [__init__]'s loop, with the
    assignment to [con_fun] made earlier in the turn. *)
Definition append_constraint (self : IpoptProblemWrapper)
  (f : list float -> list Arg -> np.value) (j : jac_closure)
  (con : constraint) : IpoptProblemWrapper :=
  {| obj_hess := obj_hess self;
     last_x := last_x self;
     fun_ := fun_ self;
     jac := jac self;
     args := args self;
     kwargs := kwargs self;
     _constraint_funs := _constraint_funs self ++ [f];
     _constraint_jacs := _constraint_jacs self ++ [j];
     _constraint_hessians := _constraint_hessians self ++ [con_hess con];
     _constraint_dims := _constraint_dims self;
     _constraint_args := _constraint_args self ++ [con_args con];
     _constraint_kwargs := _constraint_kwargs self ++ [con_kwargs con];
     _constraint_jac_is_sparse := _constraint_jac_is_sparse self;
     _constraint_jacobian_structure := _constraint_jacobian_structure self;
     con_fun := Some f;
     eps := eps self;
     nfev := nfev self;
     njev := njev self;
     nit := nit self |}.

(** The counters are the only attributes a callback assigns. *)
Definition set_counters (self : IpoptProblemWrapper) (nfev' njev' nit' : Z)
  : IpoptProblemWrapper :=
  {| obj_hess := obj_hess self;
     last_x := last_x self;
     fun_ := fun_ self;
     jac := jac self;
     args := args self;
     kwargs := kwargs self;
     _constraint_funs := _constraint_funs self;
     _constraint_jacs := _constraint_jacs self;
     _constraint_hessians := _constraint_hessians self;
     _constraint_dims := _constraint_dims self;
     _constraint_args := _constraint_args self;
     _constraint_kwargs := _constraint_kwargs self;
     _constraint_jac_is_sparse := _constraint_jac_is_sparse self;
     _constraint_jacobian_structure := _constraint_jacobian_structure self;
     con_fun := con_fun self;
     eps := eps self;
     nfev := nfev';
     njev := njev';
     nit := nit' |}.

(** [MemoizeJac(f)]: calling it gives the first half of [f]'s result, its
    [derivative] the second half. *)
Definition MemoizeJac_call {X A V J : Type} (f : X -> A -> V * J)
  : X -> A -> V :=
  fun x a => fst (f x a).

Definition MemoizeJac_derivative {X A V J : Type} (f : X -> A -> V * J)
  : X -> A -> J :=
  fun x a => snd (f x a).

(** The same for a function called with keyword arguments too. *)
Definition MemoizeJac_call_kw {X A K V J : Type} (f : X -> A -> K -> V * J)
  : X -> A -> K -> V :=
  fun x a k => fst (f x a k).

Definition MemoizeJac_derivative_kw {X A K V J : Type}
  (f : X -> A -> K -> V * J) : X -> A -> K -> J :=
  fun x a k => snd (f x a k).

(** One turn of the loop over the constraints in [__init__]. *)
Definition init_constraint (self : IpoptProblemWrapper) (con : constraint)
  : result IpoptProblemWrapper :=
  (fj <- match con_eval con with
         | ConFun f JacNone => Ok (f, ApproxFprime)
         | ConFunWithJac f => Ok (MemoizeJac_call f, Derivative f)
         | ConFun f (JacFun con_jac) => Ok (f, Callable con_jac)
         | ConFun f JacFalse =>
             Raise (NotImplementedError "jac has to be bool or a function")
         | ConFun f (JacObject _) =>
             Raise (NotImplementedError "jac has to be bool or a function")
         end ;;
   match obj_hess self, con_hess con with
   | Some _, None =>
       Raise (NotImplementedError
                "hessian has to be provided for the objective and all constraints")
   | None, Some _ =>
       Raise (NotImplementedError
                "hessian has to be provided for the objective and all constraints")
   | _, _ => Ok (append_constraint self (fst fj) (snd fj) con)
   end)%result.

Fixpoint init_constraints (self : IpoptProblemWrapper) (cs : list constraint)
  : result IpoptProblemWrapper :=
  match cs with
  | [] => Ok self
  | con :: rest =>
      (self' <- init_constraint self con ;; init_constraints self' rest)%result
  end.

(** [IpoptProblemWrapper.__init__]. *)
Definition __init__ (fun_ : objective_fun) (args : list Arg) (kwargs : option kw)
  (hess : option (list float -> list (list float)))
  (hessp : option (list float -> list float -> list float))
  (constraints : constraints_arg) (eps : float) (con_dims : list nat)
  (sparse_jacs : list bool) (jac_nnz_row jac_nnz_col : list nat)
  : result IpoptProblemWrapper :=
  if negb SCIPY_INSTALLED then Raise (ImportError "")
  else
    match hessp with
    | Some _ =>
        Raise (NotImplementedError
                 "Using hessian matrix times an arbitrary vector is not yet implemented!")
    | None =>
        (fj <- match fun_ with
               | Fun f JacNone =>
                   Ok (f, fun x0 a k =>
                            approx_fprime x0 (fun y => np.Scalar (f y a k)) eps)
               | FunWithGrad f =>
                   Ok (MemoizeJac_call_kw f, MemoizeJac_derivative_kw f)
               | Fun f (JacFun j) => Ok (f, j)
               | Fun f JacFalse =>
                   Raise (NotImplementedError "jac has to be bool or a function")
               | Fun f (JacObject _) =>
                   Raise (NotImplementedError "jac has to be bool or a function")
               end ;;
         init_constraints
           {| obj_hess := hess;
              last_x := None;
              fun_ := fst fj;
              jac := snd fj;
              args := args;
              kwargs := match kwargs with Some k => k | None => [] end;
              _constraint_funs := [];
              _constraint_jacs := [];
              _constraint_hessians := [];
              _constraint_dims := con_dims;
              _constraint_args := [];
              _constraint_kwargs := [];
              _constraint_jac_is_sparse := sparse_jacs;
              _constraint_jacobian_structure := (jac_nnz_row, jac_nnz_col);
              con_fun := None;
              eps := eps;
              nfev := 0;
              njev := 0;
              nit := 0 |}
           (as_tuple constraints))%result
    end.

Definition objective (self : IpoptProblemWrapper) (x : list float)
  : IpoptProblemWrapper * float :=
  let self := set_counters self (nfev self + 1) (njev self) (nit self) in
  (self, fun_ self x (args self) (kwargs self)).

Definition gradient (self : IpoptProblemWrapper) (x : list float)
  : IpoptProblemWrapper * np.ndarray :=
  let self := set_counters self (nfev self) (njev self + 1) (nit self) in
  (self, jac self x (args self) (kwargs self)).

(** [evaluate_fun_with_grad]: the tuple's items are evaluated left to
    right. *)
Definition evaluate_fun_with_grad (self : IpoptProblemWrapper)
  (x : list float) : IpoptProblemWrapper * (float * np.ndarray) :=
  let (self1, v) := objective self x in
  let (self2, g) := gradient self1 x in
  (self2, (v, g)).

Definition constraints (self : IpoptProblemWrapper) (x : list float)
  : result (list float) :=
  let con_values :=
    map (fun fa : (list float -> list Arg -> np.value) * list Arg =>
           fst fa x (snd fa))
        (combine (_constraint_funs self) (_constraint_args self)) in
  np.hstack con_values.

Definition jacobianstructure (self : IpoptProblemWrapper)
  : list nat * list nat :=
  _constraint_jacobian_structure self.

(** A call [jac(x, *args)] of an entry of [_constraint_jacs]. *)
Definition call_jac (self : IpoptProblemWrapper) (j : jac_closure)
  (x : list float) (a : list Arg) : result jac_value :=
  match j with
  | ApproxFprime =>
      match con_fun self with
      | Some f => Ok (Dense (approx_fprime x (fun y => f y a) (eps self)))
      | None => Raise (NameError "con_fun")
      end
  | Derivative f => Ok (MemoizeJac_derivative f x a)
  | Callable con_jac => Ok (con_jac x a)
  end.

(** The loop of [jacobian]; [i] counts the turns ([enumerate]). *)
Fixpoint jacobian_loop (self : IpoptProblemWrapper) (x : list float) (i : nat)
  (jas : list (jac_closure * list Arg)) (jac_values : list np.value)
  : result (list np.value) :=
  match jas with
  | [] => Ok jac_values
  | (j, a) :: rest =>
      match nth_error (_constraint_jac_is_sparse self) i with
      | None => Raise (IndexError "index out of range")
      | Some true =>
          (jac_val <- call_jac self j x a ;;
           match jac_val with
           | Sparse c =>
               jacobian_loop self x (S i) rest
                 (jac_values ++ [np.Vector (sparse.data c)])
           | Dense _ => Raise (Unsupported "the buffer of a dense array")
           end)%result
      | Some false =>
          (jac_val <- call_jac self j x a ;;
           match jac_val with
           | Dense d =>
               jacobian_loop self x (S i) rest
                 (jac_values ++ [np.Vector (np.ravel (np.atleast_2d d))])
           | Sparse _ => Raise (Unsupported "an object array")
           end)%result
      end
  end.

Definition jacobian (self : IpoptProblemWrapper) (x : list float)
  : result (list float) :=
  (jac_values <- jacobian_loop self x 0
                   (combine (_constraint_jacs self) (_constraint_args self))
                   [] ;;
   np.hstack jac_values)%result.

(** The loop of [hessian] over
    [zip(_constraint_hessians, _constraint_args, lagrs)]. *)
Fixpoint hessian_loop (x : list float) (H : list (list float))
  (hal : list (option hess_fun * list Arg * list float))
  : result (list (list float)) :=
  match hal with
  | [] => Ok H
  | (Some hessian, a, lagr) :: rest =>
      (H' <- np.iadd H (hessian x lagr a) ;; hessian_loop x H' rest)%result
  | (None, _, _) :: _ => Raise (TypeError "'NoneType' object is not callable")
  end.

Definition hessian (self : IpoptProblemWrapper) (x lagrange : list float)
  (obj_factor : float) : result (list float) :=
  match obj_hess self with
  | None => Raise (TypeError "'NoneType' object is not callable")
  | Some h =>
      let H := np.scale obj_factor (h x) in
      let lagrs :=
        np.split lagrange (np.cumsum (removelast (_constraint_dims self))) in
      (H' <- hessian_loop x H
               (combine (combine (_constraint_hessians self)
                                 (_constraint_args self))
                        lagrs) ;;
       np.take H' (np.tril_indices (length x)))%result
  end.

(** [intermediate] reads [iter_count] only of its eleven arguments. *)
Definition intermediate (self : IpoptProblemWrapper) (iter_count : Z)
  : IpoptProblemWrapper :=
  set_counters self (nfev self) (njev self) iter_count.

(** *** The adapter as the solver drives it *)

(** A method call on the adapter. *)
Inductive invocation : Type :=
| Objective (x : list float)
| Gradient (x : list float)
| EvaluateFunWithGrad (x : list float)
| Constraints (x : list float)
| JacobianStructure
| Jacobian (x : list float)
| Hessian (x lagrange : list float) (obj_factor : float)
| Intermediate (iter_count : Z).

(** What a method call returns. *)
Inductive returned : Type :=
| RetFloat (v : float)
| RetArray (a : np.ndarray)
| RetTuple (v : float) (a : np.ndarray)
| RetValues (r : result (list float))
| RetStructure (s : list nat * list nat)
| RetNone.

(** A method call: the adapter after it, and what it returned. *)
Definition invoke (self : IpoptProblemWrapper) (c : invocation)
  : IpoptProblemWrapper * returned :=
  match c with
  | Objective x =>
      let (self', v) := objective self x in (self', RetFloat v)
  | Gradient x =>
      let (self', g) := gradient self x in (self', RetArray g)
  | EvaluateFunWithGrad x =>
      let (self', vg) := evaluate_fun_with_grad self x in
      (self', RetTuple (fst vg) (snd vg))
  | Constraints x => (self, RetValues (constraints self x))
  | JacobianStructure => (self, RetStructure (jacobianstructure self))
  | Jacobian x => (self, RetValues (jacobian self x))
  | Hessian x lagrange obj_factor =>
      (self, RetValues (hessian self x lagrange obj_factor))
  | Intermediate iter_count => (intermediate self iter_count, RetNone)
  end.

(** The adapter after a sequence of calls. *)
Definition invoke_all (self : IpoptProblemWrapper) (calls : list invocation)
  : IpoptProblemWrapper :=
  fold_left (fun s c => fst (invoke s c)) calls self.

(** *** [minimize_ipopt] *)

(** [cyipopt.Problem(n, m, problem_obj, lb, ub, cl, cu)]. *)
Record Problem : Type := {
  nlp_n : nat;
  nlp_m : nat;
  nlp_problem_obj : IpoptProblemWrapper;
  nlp_lb : option (list float);
  nlp_ub : option (list float);
  nlp_cl : list float;
  nlp_cu : list float
}.

(** The entries of the solver's [info] that [minimize_ipopt] reads. *)
Record info : Type := {
  info_status : Z;
  info_status_msg : string;
  info_obj_val : float
}.

Record OptimizeResult : Type := {
  res_x : np.value;
  res_success : bool;
  res_status : Z;
  res_message : string;
  res_fun : float;
  res_info : info;
  res_nfev : Z;
  res_njev : Z;
  res_nit : Z
}.

(** The solver binding. [add_option_accepts option value] is false when
    [nlp.add_option(option, value)] raises [TypeError]. [nlp_solve nlp
    options x0] is a run of [nlp.solve(x0)] on a problem with [options]
    registered: the calls the solver makes on the adapter, in order, the
    point it returns and its [info]. *)
Variable add_option_accepts : okey -> pyval -> bool.
Variable nlp_solve :
  Problem -> dict -> list float -> list invocation * list float * info.

(** The three probes, in the order [minimize_ipopt] runs them. *)
Definition probes (constraints : constraints_arg) (_x0 : list float)
  : M (list float * list float * list nat * (list bool * list nat * list nat)) :=
  (clcu <- get_constraint_bounds constraints _x0 INF_default ;;
   con_dims <- get_constraint_dimensions constraints _x0 ;;
   structure <- _get_sparse_jacobian_structure constraints _x0 ;;
   ret (fst clcu, snd clcu, con_dims, structure))%M.

(** [if options is None: options = {}] *)
Definition or_empty (options : option dict) : dict :=
  match options with
  | Some o => o
  | None => []
  end.

(** [if key not in options: options[key] = value] *)
Definition set_default (key : okey) (value : pyval) (options : dict) : dict :=
  if dict_in key options then options else dict_set key value options.

(** [tol or 1e-8] *)
Definition tol_or_default (tol : option float) : float :=
  match tol with
  | None => float_1e_8
  | Some t => if (t =? 0)%float then float_1e_8 else t
  end.

(** The options as [minimize_ipopt] hands them to [nlp.add_option]. *)
Definition ipopt_options {H P : Type} (hess : option H) (hessp : option P)
  (tol : option float) (options : option dict) : dict :=
  let options := or_empty options in
  let options := convert_to_bytes options in
  let options := replace_option options (Bytes "disp") (Bytes "print_level") in
  let options := replace_option options (Bytes "maxiter") (Bytes "max_iter") in
  let options := set_default (Bytes "print_level") (PyInt 0) options in
  let options :=
    set_default (Bytes "tol") (PyFloat (tol_or_default tol)) options in
  let options :=
    set_default (Bytes "mu_strategy") (PyBytes "adaptive") options in
  if dict_in (Bytes "hessian_approximation") options then options
  else
    match hess, hessp with
    | None, None =>
        dict_set (Bytes "hessian_approximation") (PyBytes "limited-memory")
                 options
    | _, _ => options
    end.

(** The loop over [options.items()]. *)
Fixpoint add_options (items : dict) : result unit :=
  match items with
  | [] => Ok tt
  | (option, value) :: rest =>
      if add_option_accepts option value then add_options rest
      else Raise (TypeError "Invalid option for IPOPT")
  end.

(** [minimize_ipopt] up to the call of [nlp.solve]: the problem handed to
    the solver and the options registered with it. [method] and [callback]
    are never read and have no counterpart here. *)
Definition minimize_ipopt_nlp (fun_ : objective_fun) (x0 : np.value)
  (args : list Arg) (kwargs : option kw)
  (hess : option (list float -> list (list float)))
  (hessp : option (list float -> list float -> list float))
  (bounds : option (list (float * float))) (constraints : constraints_arg)
  (tol : option float) (options : option dict) : result (Problem * dict) :=
  if negb SCIPY_INSTALLED
  then Raise (ImportError "Install SciPy to use the `minimize_ipopt` function.")
  else
    let _x0 := np.atleast_1d x0 in
    let (lb, ub) := get_bounds bounds in
    (p <- fst (run (probes constraints _x0)) ;;
     let '(cl, cu, con_dims, (sparse_jacs, jac_nnz_row, jac_nnz_col)) := p in
     problem <- __init__ fun_ args kwargs hess hessp constraints float_1e_8
                  con_dims sparse_jacs jac_nnz_row jac_nnz_col ;;
     let nlp := {| nlp_n := length _x0;
                   nlp_m := length cl;
                   nlp_problem_obj := problem;
                   nlp_lb := lb;
                   nlp_ub := ub;
                   nlp_cl := cl;
                   nlp_cu := cu |} in
     let options := ipopt_options hess hessp tol options in
     _ <- add_options options ;;
     Ok (nlp, options))%result.

Definition minimize_ipopt (fun_ : objective_fun) (x0 : np.value)
  (args : list Arg) (kwargs : option kw)
  (hess : option (list float -> list (list float)))
  (hessp : option (list float -> list float -> list float))
  (bounds : option (list (float * float))) (constraints : constraints_arg)
  (tol : option float) (options : option dict) : result OptimizeResult :=
  (no <- minimize_ipopt_nlp fun_ x0 args kwargs hess hessp bounds
           constraints tol options ;;
   let '(calls, x, info) := nlp_solve (fst no) (snd no) (np.atleast_1d x0) in
   let problem := invoke_all (nlp_problem_obj (fst no)) calls in
   x' <- match x0 with
         | np.Scalar _ =>
             match x with
             | [] => Raise (IndexError "index 0 is out of bounds")
             | x_0 :: _ => Ok (np.Scalar x_0)
             end
         | np.Vector _ => Ok (np.Vector x)
         end ;;
   Ok {| res_x := x';
         res_success := (info_status info =? 0)%Z;
         res_status := info_status info;
         res_message := info_status_msg info;
         res_fun := info_obj_val info;
         res_info := info;
         res_nfev := nfev problem;
         res_njev := njev problem;
         res_nit := nit problem |})%result.

(** ** Vocabulary of the theorems *)

(** The value a group's function gives at [x]: the first half of the pair
    when ['jac'] is [True]. *)
Definition group_value (con : constraint) (x : list float) : np.value :=
  match con_eval con with
  | ConFunWithJac f => fst (f x (con_args con))
  | ConFun f _ => f x (con_args con)
  end.

(** The dimension of a group as measured at [x]. *)
Definition dimension (x : list float) (con : constraint) : nat :=
  length (np.atleast_1d (group_value con x)).

(** Where group [i] starts in a stacked vector. *)
Definition offset (dims : list nat) (i : nat) : nat :=
  list_sum (firstn i dims).

Definition recognized (con : constraint) : bool :=
  String.eqb (con_type con) "eq" || String.eqb (con_type con) "ineq".

(** ['jac'] is a callable: the group's function is not called for its
    Jacobian. *)
Definition has_callable_jac (con : constraint) : bool :=
  match con_eval con with
  | ConFun _ (JacFun _) => true
  | _ => false
  end.

(** ['jac'] is a truthy object that is neither a bool nor a callable. *)
Definition has_uncallable_jac (con : constraint) : bool :=
  match con_eval con with
  | ConFun _ (JacObject true) => true
  | _ => false
  end.

(** ['jac'] is missing, [None], [True] or a callable: what [__init__]
    accepts. *)
Definition con_jac_accepted (con : constraint) : bool :=
  match con_eval con with
  | ConFun _ JacNone | ConFun _ (JacFun _) | ConFunWithJac _ => true
  | ConFun _ JacFalse | ConFun _ (JacObject _) => false
  end.

Definition obj_jac_accepted (fun_ : objective_fun) : bool :=
  match fun_ with
  | Fun _ JacNone | Fun _ (JacFun _) | FunWithGrad _ => true
  | Fun _ JacFalse | Fun _ (JacObject _) => false
  end.

Definition is_some {A : Type} (o : option A) : bool :=
  match o with
  | Some _ => true
  | None => false
  end.

(** Some group and the objective differ in supplying a Hessian. *)
Definition hessian_mismatch {H : Type} (hess : option H)
  (cs : list constraint) : bool :=
  existsb (fun con => xorb (is_some hess) (is_some (con_hess con))) cs.

Definition is_call_fun (i : nat) (ev : event) : bool :=
  match ev with
  | CallFun k _ => k =? i
  | CallJac _ _ => false
  end.

Definition is_call_jac (i : nat) (ev : event) : bool :=
  match ev with
  | CallJac k _ => k =? i
  | CallFun _ _ => false
  end.

(** How often group [i]'s function, and its Jacobian evaluator, is called in
    a log. *)
Definition fun_calls (i : nat) (tr : list event) : nat :=
  length (filter (is_call_fun i) tr).

Definition jac_calls (i : nat) (tr : list event) : nat :=
  length (filter (is_call_jac i) tr).

Definition event_point (ev : event) : list float :=
  match ev with
  | CallFun _ x => x
  | CallJac _ x => x
  end.

(** The dense structure of [p] rows and [n] columns in row-major order. *)
Definition dense_rows (p n : nat) : list nat :=
  flat_map (fun i => repeat i n) (seq 0 p).

Definition dense_cols (p n : nat) : list nat :=
  concat (repeat (seq 0 n) p).

Definition rectangular (p n : nat) (rows : list (list float)) : Prop :=
  length rows = p /\ Forall (fun r => length r = n) rows.

(** The Jacobian a group's evaluator gives at [x], when the group declares
    one. *)
Definition group_jacobian (con : constraint) (x : list float)
  : option jac_value :=
  match con_eval con with
  | ConFunWithJac f => Some (snd (f x (con_args con)))
  | ConFun _ (JacFun con_jac) => Some (con_jac x (con_args con))
  | ConFun _ _ => None
  end.





(** How often a sequence of calls runs [objective], and [gradient]:
    [evaluate_fun_with_grad] runs each once. *)
Definition objective_calls (calls : list invocation) : Z :=
  Z.of_nat (length (filter (fun c => match c with
                                     | Objective _ | EvaluateFunWithGrad _ => true
                                     | _ => false
                                     end) calls)).

Definition gradient_calls (calls : list invocation) : Z :=
  Z.of_nat (length (filter (fun c => match c with
                                     | Gradient _ | EvaluateFunWithGrad _ => true
                                     | _ => false
                                     end) calls)).

(** The upper bounds of one group. *)
Definition upper_bounds (INF : float) (x0 : list float) (con : constraint)
  : list float :=
  if String.eqb (con_type con) "eq" then np.zeros (dimension x0 con)
  else map (fun o => (INF * o)%float) (np.ones (dimension x0 con)).

(** The block a group contributes to the structure, with its "is sparse"
    flag: a Jacobian in coordinate form as it is, any other as a full block
    of its shape, and a full block of [dimension] rows and [len(x0)] columns
    when no Jacobian is declared. *)
Definition block_of_jac_val (jac_val : jac_value) : sparse.coo_array * bool :=
  match jac_val with
  | Sparse c => (c, true)
  | Dense a => (sparse.of_dense (np.ones_like (np.atleast_2d a)), false)
  end.

Definition structure_block (x0 : list float) (con : constraint)
  : sparse.coo_array * bool :=
  match group_jacobian con x0 with
  | Some jac_val => block_of_jac_val jac_val
  | None =>
      (sparse.of_dense (np.ones2 (dimension x0 con) (length x0)), false)
  end.

(** The call structure discovery makes for group [i]. *)
Definition structure_event (x0 : list float) (icon : nat * constraint) : event :=
  if has_callable_jac (snd icon) then CallJac (fst icon) x0
  else CallFun (fst icon) x0.

(** The entries [__init__] appends for a group. *)
Definition value_fun (con : constraint) : list float -> list Arg -> np.value :=
  match con_eval con with
  | ConFun f _ => f
  | ConFunWithJac f => MemoizeJac_call f
  end.

Definition closure_of (con : constraint) : jac_closure :=
  match con_eval con with
  | ConFun _ (JacFun con_jac) => Callable con_jac
  | ConFunWithJac f => Derivative f
  | ConFun _ _ => ApproxFprime
  end.

(** The caller gave ['hessian_approximation'], as [str] or as [bytes]. *)
Definition caller_set_hessian_approximation (options : option dict) : bool :=
  dict_in (Str "hessian_approximation") (or_empty options)
  || dict_in (Bytes "hessian_approximation") (or_empty options).

(** The iteration count on record after a sequence of calls that starts with
    [start] on record: the argument of the last [intermediate]. *)
Definition reported_iteration (calls : list invocation) (start : Z) : Z :=
  fold_left (fun acc c => match c with
                          | Intermediate iter_count => iter_count
                          | _ => acc
                          end) calls start.

(** The values [jacobian(x)] takes from a Jacobian: the stored [data] of a
    [coo_array], the row-major flattening of a dense array. *)
Definition jacobian_values (jac_val : jac_value) : list float :=
  match jac_val with
  | Sparse c => sparse.data c
  | Dense a => np.ravel (np.atleast_2d a)
  end.

(** A Jacobian at [x] fits the structure recorded from the Jacobian at the
    initial point: the same kind, and as many values as recorded rows. *)
Definition same_layout (jac_val0 jac_val : jac_value) : Prop :=
  match jac_val0, jac_val with
  | Dense a0, Dense a =>
      length (np.ravel (np.atleast_2d a)) = length (np.ravel (np.atleast_2d a0))
  | Sparse c0, Sparse c => length (sparse.data c) = length (sparse.row c0)
  | _, _ => False
  end.

(** The rows of the blocks before block [i]. *)
Definition row_offset (blocks : list sparse.coo_array) (i : nat) : nat :=
  list_sum (map (fun B => fst (sparse.shape B)) (firstn i blocks)).

(** The blocks structure discovery stacks, one per group. *)
Definition structure_blocks (x0 : list float) (cs : list constraint)
  : list sparse.coo_array :=
  map (fun con => fst (structure_block x0 con)) cs.

(** The rows of stacked blocks: those of each block, shifted by [off] and by
    the rows of the blocks before it. *)
Definition stacked_rows (off : nat) (blocks : list sparse.coo_array)
  : list nat :=
  flat_map (fun iB : nat * sparse.coo_array =>
              map (fun r => r + (off + row_offset blocks (fst iB)))
                  (sparse.row (snd iB)))
           (combine (seq 0 (length blocks)) blocks).

(** The values [jacobian(x)] takes from group [con] on the adapter [self]. *)
Definition called_values (self : IpoptProblemWrapper) (x : list float)
  (con : constraint) : list float :=
  match call_jac self (closure_of con) x (con_args con) with
  | Ok jac_val => jacobian_values jac_val
  | Raise _ => []
  end.

Definition is_sparse (jac_val : jac_value) : bool :=
  match jac_val with
  | Sparse _ => true
  | Dense _ => false
  end.

(** ** Sample problems

    A small problem, minimize [x1^2 + x2^2] subject to [x1 + x2 = 1];
    groups that exercise the other branches; and stand-ins for the two
    collaborators the module calls. *)

(** [x] with [epsilon] added to component [i]. *)
Definition bump (x : list float) (i : nat) (epsilon : float) : list float :=
  map (fun jv : nat * float =>
         if fst jv =? i then (snd jv + epsilon)%float else snd jv)
      (combine (seq 0 (length x)) x).

(** Forward differences, in the place of [scipy.optimize.approx_fprime]: a
    gradient for a scalar function, a Jacobian (one row per output) for a
    vector function. *)
Definition forward_difference (xk : list float) (f : list float -> np.value)
  (epsilon : float) : np.ndarray :=
  let f0 := np.atleast_1d (f xk) in
  let column (i : nat) :=
    map (fun ab : float * float => ((fst ab - snd ab) / epsilon)%float)
        (combine (np.atleast_1d (f (bump xk i epsilon))) f0) in
  match f xk with
  | np.Scalar _ =>
      np.Array1 (map (fun i => hd 0%float (column i)) (seq 0 (length xk)))
  | np.Vector v =>
      np.Array2 (map (fun k => map (fun i => nth k (column i) 0%float)
                                  (seq 0 (length xk)))
                     (seq 0 (length v)))
  end.

(** A solver that evaluates the objective and its gradient once, reports one
    iteration and returns the point it was started from. *)
Definition one_step_solver (nlp : Problem) (options : dict)
  (x0 : list float) : list invocation * list float * info :=
  ([Objective x0; Gradient x0; Intermediate 1],
   x0,
   {| info_status := 0;
      info_status_msg := "one step taken";
      info_obj_val := 0%float |}).

Definition accept_all (option : okey) (value : pyval) : bool := true.

(** [x1^2 + x2^2 + ...], its gradient and its Hessian in two variables. *)
Definition sum_of_squares (x : list float) (_ : list Arg) (_ : kw)
  : float :=
  fold_right (fun v acc => (v * v + acc)%float) 0%float x.

Definition sum_of_squares_jac (x : list float) (_ : list Arg) (_ : kw)
  : np.ndarray :=
  np.Array1 (map (fun v => (2 * v)%float) x).

Definition sum_of_squares_hess (_ : list float) : list (list float) :=
  [[2; 0]; [0; 2]]%float.

Definition no_curvature (_ _ : list float) (_ : list Arg)
  : list (list float) :=
  [[0; 0]; [0; 0]]%float.

(** [x1 + x2 - 1 = 0], with its Jacobian as a callable. *)
Definition on_the_line : constraint :=
  {| con_eval :=
       ConFun (fun x _ => np.Scalar (nth 0 x 0 + nth 1 x 0 - 1)%float)
              (JacFun (fun _ _ => Dense (np.Array1 [1; 1]%float)));
     con_args := [];
     con_hess := Some no_curvature;
     con_kwargs := [];
     con_type := "eq" |}.

(** The same constraint with neither Jacobian nor Hessian. *)
Definition on_the_line_plain : constraint :=
  {| con_eval :=
       ConFun (fun x _ => np.Scalar (nth 0 x 0 + nth 1 x 0 - 1)%float) JacNone;
     con_args := [];
     con_hess := None;
     con_kwargs := [];
     con_type := "eq" |}.

(** [x >= 0] componentwise, with the Jacobian returned next to the value
    (['jac': True]): a 2 x 2 array with zero entries. *)
Definition nonnegative : constraint :=
  {| con_eval :=
       ConFunWithJac
         (fun x _ => (np.Vector x, Dense (np.Array2 [[1; 0]; [0; 1]]%float)));
     con_args := [];
     con_hess := Some no_curvature;
     con_kwargs := [];
     con_type := "ineq" |}.

(** The same group with the Jacobian as a callable and without a Hessian. *)
Definition nonnegative_callable : constraint :=
  {| con_eval :=
       ConFun (fun x _ => np.Vector x)
              (JacFun (fun _ _ => Dense (np.Array2 [[1; 0]; [0; 1]]%float)));
     con_args := [];
     con_hess := None;
     con_kwargs := [];
     con_type := "ineq" |}.

(** [x >= 0] componentwise, with its Jacobian in coordinate form: the two
    diagonal entries. *)
Definition nonnegative_sparse : constraint :=
  {| con_eval :=
       ConFun (fun x _ => np.Vector x)
              (JacFun (fun _ _ =>
                         Sparse {| sparse.shape := (2, 2);
                                   sparse.row := [0; 1];
                                   sparse.col := [0; 1];
                                   sparse.data := [1; 1]%float |}));
     con_args := [];
     con_hess := Some no_curvature;
     con_kwargs := [];
     con_type := "ineq" |}.

(** [x1 * x2 >= 0], with neither Jacobian nor Hessian. *)
Definition same_sign : constraint :=
  {| con_eval :=
       ConFun (fun x _ => np.Scalar (nth 0 x 0 * nth 1 x 0)%float) JacNone;
     con_args := [];
     con_hess := None;
     con_kwargs := [];
     con_type := "ineq" |}.

(** [x[x > 0]]: the positive components of [x], as many as there are; no
    Jacobian is declared. *)
Definition positive_part : constraint :=
  {| con_eval :=
       ConFun (fun x _ => np.Vector (filter (fun v => (0 <? v)%float) x))
              JacNone;
     con_args := [];
     con_hess := None;
     con_kwargs := [];
     con_type := "ineq" |}.

(** ** The probes *)

Lemma probe_dimension_run (i : nat) (con : constraint) (x0 : list float)
  (tr : list event) :
  probe_dimension i con x0 tr = (Ok (dimension x0 con), tr ++ [CallFun i x0]).
Proof.
  unfold probe_dimension, dimension, group_value.
  destruct (con_eval con); reflexivity.
Qed.

Lemma get_constraint_dimensions_loop_run (cs : list constraint) :
  forall (i : nat) (x0 : list float) (con_dims : list nat) (tr : list event),
    get_constraint_dimensions_loop i cs x0 con_dims tr =
    (Ok (con_dims ++ map (dimension x0) cs),
     tr ++ map (fun k => CallFun k x0) (seq i (length cs))).
Proof.
  induction cs as [|con rest IH]; intros i x0 con_dims tr; simpl.
  - unfold ret. now rewrite !app_nil_r.
  - unfold bind. rewrite probe_dimension_run, IH.
    now rewrite <- !app_assoc.
Qed.

Lemma get_constraint_dimensions_run (constraints : constraints_arg)
  (x0 : list float) (tr : list event) :
  get_constraint_dimensions constraints x0 tr =
  (Ok (map (dimension x0) (as_tuple constraints)),
   tr ++ map (fun k => CallFun k x0) (seq 0 (length (as_tuple constraints)))).
Proof.
  unfold get_constraint_dimensions.
  now rewrite get_constraint_dimensions_loop_run.
Qed.

Lemma get_constraint_bounds_loop_ok (cs : list constraint) :
  forall (i : nat) (x0 : list float) (INF : float) (cl cu : list float)
         (tr : list event),
    forallb recognized cs = true ->
    get_constraint_bounds_loop i cs x0 INF cl cu tr =
    (Ok (cl ++ flat_map (fun con => np.zeros (dimension x0 con)) cs,
         cu ++ flat_map (upper_bounds INF x0) cs),
     tr ++ map (fun k => CallFun k x0) (seq i (length cs))).
Proof.
  induction cs as [|con rest IH]; intros i x0 INF cl cu tr Hrec; simpl.
  - unfold ret. now rewrite !app_nil_r.
  - simpl in Hrec. apply andb_true_iff in Hrec as [Hcon Hrest].
    unfold bind. rewrite probe_dimension_run.
    unfold recognized in Hcon. unfold upper_bounds.
    destruct (String.eqb (con_type con) "eq") eqn:Heq.
    + rewrite IH by assumption. now rewrite <- !app_assoc.
    + simpl in Hcon. rewrite Hcon.
      rewrite IH by assumption. now rewrite <- !app_assoc.
Qed.

Lemma get_constraint_bounds_loop_raise (cs : list constraint) :
  forall (i : nat) (x0 : list float) (INF : float) (cl cu : list float)
         (tr : list event) (bad : constraint),
    find (fun con => negb (recognized con)) cs = Some bad ->
    fst (get_constraint_bounds_loop i cs x0 INF cl cu tr) =
    Raise (ValueError (con_type bad)).
Proof.
  induction cs as [|con rest IH]; intros i x0 INF cl cu tr bad Hbad; simpl.
  - discriminate.
  - simpl in Hbad. unfold bind. rewrite probe_dimension_run.
    unfold recognized in Hbad.
    destruct (String.eqb (con_type con) "eq") eqn:Heq; simpl in Hbad.
    + now apply IH.
    + destruct (String.eqb (con_type con) "ineq") eqn:Hineq; simpl in Hbad.
      * now apply IH.
      * now inversion Hbad; subst.
Qed.

Lemma find_none_forallb {A : Type} (f : A -> bool) (l : list A) :
  find (fun a => negb (f a)) l = None -> forallb f l = true.
Proof.
  induction l as [|a l IH]; simpl; [reflexivity|].
  destruct (f a); simpl; [exact IH | discriminate].
Qed.

Lemma sentinel_times_one : (INF_default * 1)%float = 1e19%float.
Proof. reflexivity. Qed.

Lemma upper_bounds_default (x0 : list float) (con : constraint) :
  upper_bounds INF_default x0 con =
  repeat (if String.eqb (con_type con) "eq" then 0%float else 1e19%float)
         (dimension x0 con).
Proof.
  unfold upper_bounds, np.zeros, np.ones.
  destruct (String.eqb (con_type con) "eq"); [reflexivity|].
  induction (dimension x0 con) as [|m IH]; cbn [repeat map]; [reflexivity|].
  rewrite IH. reflexivity.
Qed.

(** C6. [get_constraint_bounds] gives, group by group, as many lower bounds 0
    as the group's dimension at [x0] (the dimension [get_constraint_dimensions]
    reports), and as many upper bounds: 0 for type ['eq'], the sentinel 1e19
    for type ['ineq']. With a type that is neither it raises: the
    [ValueError] that carries the first such type, which is the module's
    error for a malformed problem. *)
Theorem get_constraint_bounds_by_type (constraints : constraints_arg)
  (x0 : list float) :
  fst (run (get_constraint_dimensions constraints x0)) =
    Ok (map (dimension x0) (as_tuple constraints))
  /\ fst (run (get_constraint_bounds constraints x0 INF_default)) =
     match find (fun con => negb (recognized con)) (as_tuple constraints) with
     | Some bad => Raise (ValueError (con_type bad))
     | None =>
         Ok (flat_map (fun con => repeat 0%float (dimension x0 con))
                      (as_tuple constraints),
             flat_map (fun con =>
                         repeat (if String.eqb (con_type con) "eq"
                                 then 0%float else 1e19%float)
                                (dimension x0 con))
                      (as_tuple constraints))
     end.
Proof.
  split.
  - unfold run. now rewrite get_constraint_dimensions_run.
  - unfold run, get_constraint_bounds.
    destruct (find _ (as_tuple constraints)) as [bad|] eqn:Hfind.
    + now apply get_constraint_bounds_loop_raise.
    + rewrite get_constraint_bounds_loop_ok by now apply find_none_forallb.
      simpl. do 2 f_equal.
      apply flat_map_ext. intro con. apply upper_bounds_default.
Qed.

Lemma jacobian_block_run (i : nat) (con : constraint) (x0 : list float)
  (tr : list event) :
  has_uncallable_jac con = false ->
  jacobian_block i con x0 tr =
  (Ok (structure_block x0 con), tr ++ [structure_event x0 (i, con)]).
Proof.
  unfold jacobian_block, structure_block, structure_event, group_jacobian,
    has_uncallable_jac, has_callable_jac, dimension, group_value.
  simpl.
  destruct (con_eval con) as [f [| |j|[|]]|f]; intro Hu;
    try discriminate; reflexivity.
Qed.

Lemma jacobian_blocks_run (cs : list constraint) :
  forall (i : nat) (x0 : list float) (flags : list bool)
         (jacobians : list sparse.coo_array) (tr : list event),
    forallb (fun con => negb (has_uncallable_jac con)) cs = true ->
    jacobian_blocks i cs x0 flags jacobians tr =
    (Ok (flags ++ map (fun con => snd (structure_block x0 con)) cs,
         jacobians ++ map (fun con => fst (structure_block x0 con)) cs),
     tr ++ map (structure_event x0) (combine (seq i (length cs)) cs)).
Proof.
  induction cs as [|con rest IH]; intros i x0 flags jacobians tr Hu; simpl.
  - unfold ret. now rewrite !app_nil_r.
  - simpl in Hu. apply andb_true_iff in Hu as [Hcon Hrest].
    apply negb_true_iff in Hcon.
    unfold bind. rewrite jacobian_block_run by assumption.
    rewrite IH by assumption. now rewrite <- !app_assoc.
Qed.

Lemma structure_trace (constraints : constraints_arg) (x0 : list float)
  (tr : list event) :
  forallb (fun con => negb (has_uncallable_jac con)) (as_tuple constraints)
    = true ->
  snd (_get_sparse_jacobian_structure constraints x0 tr) =
  tr ++ map (structure_event x0)
            (combine (seq 0 (length (as_tuple constraints)))
                     (as_tuple constraints)).
Proof.
  intro Hu. unfold _get_sparse_jacobian_structure.
  destruct (as_tuple constraints) as [|con rest] eqn:Hcs.
  - simpl. unfold ret. simpl. now rewrite app_nil_r.
  - unfold bind. rewrite jacobian_blocks_run by assumption.
    unfold lift. cbn [snd fst].
    now destruct (sparse.vstack _).
Qed.

(** The log of the three probes when every type is recognized and no
    ['jac'] is an uncallable object: the bounds pass, the dimensions pass,
    the structure pass. *)
Lemma probes_trace (constraints : constraints_arg) (x0 : list float) :
  forallb recognized (as_tuple constraints) = true ->
  forallb (fun con => negb (has_uncallable_jac con)) (as_tuple constraints)
    = true ->
  snd (run (probes constraints x0)) =
  map (fun k => CallFun k x0) (seq 0 (length (as_tuple constraints)))
  ++ map (fun k => CallFun k x0) (seq 0 (length (as_tuple constraints)))
  ++ map (structure_event x0)
         (combine (seq 0 (length (as_tuple constraints)))
                  (as_tuple constraints)).
Proof.
  intros Hrec Hu. unfold run, probes, bind.
  unfold get_constraint_bounds.
  rewrite get_constraint_bounds_loop_ok by assumption.
  rewrite get_constraint_dimensions_run.
  pose proof (structure_trace constraints x0
                ([] ++ map (fun k => CallFun k x0)
                           (seq 0 (length (as_tuple constraints)))
                    ++ map (fun k => CallFun k x0)
                           (seq 0 (length (as_tuple constraints)))) Hu) as Hs.
  simpl app in *. rewrite <- app_assoc in Hs.
  destruct (_get_sparse_jacobian_structure constraints x0 _) as [[s|e] tr'];
    simpl in *; exact Hs.
Qed.

Lemma fun_calls_app (i : nat) (a b : list event) :
  fun_calls i (a ++ b) = fun_calls i a + fun_calls i b.
Proof. unfold fun_calls. now rewrite filter_app, length_app. Qed.

Lemma jac_calls_app (i : nat) (a b : list event) :
  jac_calls i (a ++ b) = jac_calls i a + jac_calls i b.
Proof. unfold jac_calls. now rewrite filter_app, length_app. Qed.

Lemma fun_calls_pass (x0 : list float) (n : nat) :
  forall s i,
    fun_calls i (map (fun k => CallFun k x0) (seq s n)) =
    if (s <=? i) && (i <? s + n) then 1 else 0.
Proof.
  induction n as [|n IH]; intros s i; simpl.
  - destruct (s <=? i) eqn:H1; simpl; [|reflexivity].
    destruct (i <? s + 0) eqn:H2; [|reflexivity].
    apply Nat.leb_le in H1. apply Nat.ltb_lt in H2. lia.
  - unfold fun_calls in *. simpl.
    destruct (s =? i) eqn:Hsi; simpl; rewrite IH.
    + apply Nat.eqb_eq in Hsi. subst.
      replace (S i <=? i) with false by (symmetry; apply Nat.leb_gt; lia).
      rewrite Nat.leb_refl. simpl.
      replace (i <? i + S n) with true by (symmetry; apply Nat.ltb_lt; lia).
      reflexivity.
    + apply Nat.eqb_neq in Hsi.
      destruct (S s <=? i) eqn:H1.
      * apply Nat.leb_le in H1.
        replace (s <=? i) with true by (symmetry; apply Nat.leb_le; lia).
        simpl. now replace (s + S n) with (S s + n) by lia.
      * apply Nat.leb_gt in H1. simpl.
        replace (s <=? i) with false by (symmetry; apply Nat.leb_gt; lia).
        reflexivity.
Qed.

Lemma jac_calls_pass (x0 : list float) (l : list nat) (i : nat) :
  jac_calls i (map (fun k => CallFun k x0) l) = 0.
Proof. induction l as [|k l IH]; [reflexivity | exact IH]. Qed.

Lemma structure_calls_other (x0 : list float) (cs : list constraint) :
  forall s i,
    i < s ->
    fun_calls i (map (structure_event x0) (combine (seq s (length cs)) cs)) = 0
    /\ jac_calls i (map (structure_event x0)
                        (combine (seq s (length cs)) cs)) = 0.
Proof.
  induction cs as [|con rest IH]; intros s i Hlt; simpl; [now split|].
  destruct (IH (S s) i ltac:(lia)) as [IHf IHj].
  unfold fun_calls, jac_calls, structure_event in *. simpl.
  destruct (has_callable_jac con); simpl;
    replace (s =? i) with false by (symmetry; apply Nat.eqb_neq; lia);
    now split.
Qed.

Lemma structure_calls (x0 : list float) (cs : list constraint) :
  forall s i con,
    nth_error cs i = Some con ->
    fun_calls (s + i)
      (map (structure_event x0) (combine (seq s (length cs)) cs)) =
      (if has_callable_jac con then 0 else 1)
    /\ jac_calls (s + i)
         (map (structure_event x0) (combine (seq s (length cs)) cs)) =
       (if has_callable_jac con then 1 else 0).
Proof.
  induction cs as [|c rest IH]; intros s i con Hnth.
  - now destruct i.
  - destruct i as [|i]; simpl in Hnth.
    + inversion Hnth; subst c. rewrite Nat.add_0_r. simpl.
      destruct (structure_calls_other x0 rest (S s) s ltac:(lia)) as [Hf Hj].
      unfold fun_calls, jac_calls, structure_event in *. simpl.
      destruct (has_callable_jac con); simpl; rewrite Nat.eqb_refl; simpl;
        rewrite ?Hf, ?Hj; now split.
    + destruct (IH (S s) i con Hnth) as [Hf Hj].
      replace (s + S i) with (S s + i) by lia. simpl.
      unfold fun_calls, jac_calls, structure_event in *. simpl.
      destruct (has_callable_jac c); simpl;
        replace (s =? S (s + i)) with false
          by (symmetry; apply Nat.eqb_neq; lia);
        now split.
Qed.

(** C8, as the code has it. No probe reuses another's evaluation. When every
    type is recognized and no ['jac'] is an uncallable object, the three
    probes together call each group's function at the initial point twice
    (bounds, dimensions) and a third time for the structure unless the group
    declares a callable Jacobian, which is then called once instead; and
    every call of the log is at the initial point. *)
Theorem probes_call_each_function_per_pass (constraints : constraints_arg)
  (x0 : list float) (i : nat) (con : constraint) :
  forallb recognized (as_tuple constraints) = true ->
  forallb (fun con => negb (has_uncallable_jac con)) (as_tuple constraints)
    = true ->
  nth_error (as_tuple constraints) i = Some con ->
  fun_calls i (snd (run (probes constraints x0))) =
    (if has_callable_jac con then 2 else 3)
  /\ jac_calls i (snd (run (probes constraints x0))) =
     (if has_callable_jac con then 1 else 0)
  /\ Forall (fun ev => event_point ev = x0) (snd (run (probes constraints x0))).
Proof.
  intros Hrec Hu Hnth.
  rewrite probes_trace by assumption.
  assert (Hi : i < length (as_tuple constraints))
    by (apply nth_error_Some; congruence).
  destruct (structure_calls x0 (as_tuple constraints) 0 i con Hnth) as [Hf Hj].
  simpl in Hf, Hj.
  repeat split.
  - rewrite !fun_calls_app, !fun_calls_pass, Hf. simpl.
    replace (i <? length (as_tuple constraints)) with true
      by (symmetry; now apply Nat.ltb_lt).
    now destruct (has_callable_jac con).
  - rewrite !jac_calls_app, !jac_calls_pass, Hj. reflexivity.
  - rewrite !Forall_app. repeat split.
    + apply Forall_forall. intros ev Hin.
      apply in_map_iff in Hin as [k [<- _]]. reflexivity.
    + apply Forall_forall. intros ev Hin.
      apply in_map_iff in Hin as [k [<- _]]. reflexivity.
    + apply Forall_forall. intros ev Hin.
      apply in_map_iff in Hin as [[k c] [<- _]].
      unfold structure_event. simpl. now destruct (has_callable_jac c).
Qed.

(** ** Construction of the adapter *)

Lemma value_fun_group_value (con : constraint) (x : list float) :
  value_fun con x (con_args con) = group_value con x.
Proof.
  unfold value_fun, group_value. now destruct (con_eval con).
Qed.

Lemma init_constraint_ok (self self' : IpoptProblemWrapper) (con : constraint) :
  init_constraint self con = Ok self' ->
  self' = append_constraint self (value_fun con) (closure_of con) con
  /\ con_jac_accepted con = true
  /\ is_some (obj_hess self) = is_some (con_hess con).
Proof.
  unfold init_constraint, value_fun, closure_of, con_jac_accepted.
  destruct (con_eval con) as [f [| |j|t]|f]; simpl; try discriminate;
    destruct (obj_hess self), (con_hess con); simpl; try discriminate;
    intro H; inversion H; now repeat split.
Qed.

(** What does not change, and what grows, in the loop of [__init__]. *)
Lemma init_constraints_ok (cs : list constraint) :
  forall self0 self : IpoptProblemWrapper,
    init_constraints self0 cs = Ok self ->
    obj_hess self = obj_hess self0
    /\ _constraint_dims self = _constraint_dims self0
    /\ _constraint_jac_is_sparse self = _constraint_jac_is_sparse self0
    /\ _constraint_jacobian_structure self = _constraint_jacobian_structure self0
    /\ (nfev self = nfev self0 /\ njev self = njev self0 /\ nit self = nit self0)
    /\ _constraint_funs self = _constraint_funs self0 ++ map value_fun cs
    /\ _constraint_args self = _constraint_args self0 ++ map con_args cs
    /\ _constraint_hessians self = _constraint_hessians self0 ++ map con_hess cs
    /\ _constraint_jacs self = _constraint_jacs self0 ++ map closure_of cs
    /\ forallb con_jac_accepted cs = true
    /\ forall con, In con cs ->
                   is_some (obj_hess self0) = is_some (con_hess con).
Proof.
  induction cs as [|con rest IH]; intros self0 self Hinit; simpl in Hinit.
  - inversion Hinit; subst. rewrite !app_nil_r.
    repeat split; auto. intros con [].
  - destruct (init_constraint self0 con) as [self1|e] eqn:Hstep; simpl in Hinit;
      [|discriminate].
    apply init_constraint_ok in Hstep as (-> & Hacc & Hhess).
    apply IH in Hinit
      as (Ho & Hd & Hs & Hst & (Hnf & Hnj & Hni) & Hf & Ha & Hh & Hj & Hall & Hin).
    simpl in *. rewrite <- !app_assoc in *. simpl in *.
    repeat split; auto.
    + now rewrite Hacc, Hall.
    + intros c [<-|Hc]; [exact Hhess | now apply Hin].
Qed.

(** What a successful [__init__] leaves in the adapter. *)
Lemma init_ok (fun_ : objective_fun) (args : list Arg) (kwargs : option kw)
  (hess : option (list float -> list (list float)))
  (hessp : option (list float -> list float -> list float))
  (constraints : constraints_arg) (eps : float) (con_dims : list nat)
  (sparse_jacs : list bool) (jac_nnz_row jac_nnz_col : list nat)
  (self : IpoptProblemWrapper) :
  __init__ fun_ args kwargs hess hessp constraints eps con_dims sparse_jacs
           jac_nnz_row jac_nnz_col = Ok self ->
  hessp = None
  /\ obj_hess self = hess
  /\ _constraint_dims self = con_dims
  /\ _constraint_jac_is_sparse self = sparse_jacs
  /\ _constraint_jacobian_structure self = (jac_nnz_row, jac_nnz_col)
  /\ (nfev self = 0%Z /\ njev self = 0%Z /\ nit self = 0%Z)
  /\ _constraint_funs self = map value_fun (as_tuple constraints)
  /\ _constraint_args self = map con_args (as_tuple constraints)
  /\ _constraint_hessians self = map con_hess (as_tuple constraints)
  /\ _constraint_jacs self = map closure_of (as_tuple constraints)
  /\ forall con, In con (as_tuple constraints) ->
                 is_some hess = is_some (con_hess con).
Proof.
  unfold __init__. simpl.
  destruct hessp as [p|]; [discriminate|].
  destruct (match fun_ with Fun f JacNone => _ | _ => _ end) as [fj|e];
    simpl; [|discriminate].
  intro Hinit.
  apply init_constraints_ok in Hinit
    as (Ho & Hd & Hs & Hst & Hc & Hf & Ha & Hh & Hj & _ & Hin).
  simpl in *. repeat split; auto; apply Hc.
Qed.

(** ** The counters and the structure (C9) *)

Lemma invoke_counters (self : IpoptProblemWrapper) (c : invocation) :
  nfev (fst (invoke self c)) = (nfev self + objective_calls [c])%Z
  /\ njev (fst (invoke self c)) = (njev self + gradient_calls [c])%Z
  /\ jacobianstructure (fst (invoke self c)) = jacobianstructure self.
Proof.
  destruct c; cbn; (split; [|split]); solve [reflexivity | lia].
Qed.

Lemma objective_calls_cons (c : invocation) (calls : list invocation) :
  objective_calls (c :: calls) = (objective_calls [c] + objective_calls calls)%Z.
Proof. unfold objective_calls. destruct c; cbn [filter length]; lia. Qed.

Lemma gradient_calls_cons (c : invocation) (calls : list invocation) :
  gradient_calls (c :: calls) = (gradient_calls [c] + gradient_calls calls)%Z.
Proof. unfold gradient_calls. destruct c; cbn [filter length]; lia. Qed.

Lemma invoke_all_counters (calls : list invocation) :
  forall self : IpoptProblemWrapper,
    nfev (invoke_all self calls) = (nfev self + objective_calls calls)%Z
    /\ njev (invoke_all self calls) = (njev self + gradient_calls calls)%Z
    /\ jacobianstructure (invoke_all self calls) = jacobianstructure self.
Proof.
  induction calls as [|c calls IH]; intro self.
  - cbn. repeat split; lia.
  - unfold invoke_all in *. cbn [fold_left].
    destruct (IH (fst (invoke self c))) as (Hf & Hj & Hs).
    destruct (invoke_counters self c) as (Hf1 & Hj1 & Hs1).
    rewrite Hf, Hj, Hs, Hf1, Hj1, Hs1.
    rewrite (objective_calls_cons c calls), (gradient_calls_cons c calls).
    repeat split; lia.
Qed.

Lemma invoke_all_app (self : IpoptProblemWrapper) (a b : list invocation) :
  invoke_all self (a ++ b) = invoke_all (invoke_all self a) b.
Proof. unfold invoke_all. apply fold_left_app. Qed.

Lemma objective_calls_nonneg (calls : list invocation) :
  (0 <= objective_calls calls)%Z.
Proof. unfold objective_calls. lia. Qed.

Lemma gradient_calls_nonneg (calls : list invocation) :
  (0 <= gradient_calls calls)%Z.
Proof. unfold gradient_calls. lia. Qed.

(** C9. After construction [nfev] and [njev] are 0. Along any sequence of
    method calls, [nfev] is the number of [objective] runs so far and [njev]
    the number of [gradient] runs ([evaluate_fun_with_grad] runs each once):
    every such run adds exactly one, no other method changes them, and they
    never decrease as the sequence goes on. [jacobianstructure()] returns the
    pair given at construction after any such sequence. *)
Theorem counters_count_and_structure_is_fixed
  (fun_ : objective_fun) (args : list Arg) (kwargs : option kw)
  (hess : option (list float -> list (list float)))
  (hessp : option (list float -> list float -> list float))
  (constraints : constraints_arg) (eps : float) (con_dims : list nat)
  (sparse_jacs : list bool) (jac_nnz_row jac_nnz_col : list nat)
  (self : IpoptProblemWrapper) (calls more : list invocation) :
  __init__ fun_ args kwargs hess hessp constraints eps con_dims sparse_jacs
           jac_nnz_row jac_nnz_col = Ok self ->
  (nfev self = 0 /\ njev self = 0)%Z
  /\ nfev (invoke_all self calls) = objective_calls calls
  /\ njev (invoke_all self calls) = gradient_calls calls
  /\ (forall c : invocation,
        nfev (fst (invoke (invoke_all self calls) c)) =
          (nfev (invoke_all self calls)
           + match c with
             | Objective _ | EvaluateFunWithGrad _ => 1
             | _ => 0
             end)%Z
        /\ njev (fst (invoke (invoke_all self calls) c)) =
           (njev (invoke_all self calls)
            + match c with
              | Gradient _ | EvaluateFunWithGrad _ => 1
              | _ => 0
              end)%Z)
  /\ (nfev (invoke_all self calls) <= nfev (invoke_all self (calls ++ more))
      /\ njev (invoke_all self calls) <= njev (invoke_all self (calls ++ more)))%Z
  /\ jacobianstructure (invoke_all self calls) = (jac_nnz_row, jac_nnz_col).
Proof.
  intro Hinit.
  apply init_ok in Hinit as (_ & _ & _ & _ & Hst & (Hnf & Hnj & _) & _).
  destruct (invoke_all_counters calls self) as (Hf & Hj & Hs).
  repeat split; try assumption.
  - rewrite Hf, Hnf. lia.
  - rewrite Hj, Hnj. lia.
  - destruct c; cbn; lia.
  - destruct c; cbn; lia.
  - rewrite invoke_all_app.
    destruct (invoke_all_counters more (invoke_all self calls)) as (Hf' & _).
    rewrite Hf'. pose proof (objective_calls_nonneg more). lia.
  - rewrite invoke_all_app.
    destruct (invoke_all_counters more (invoke_all self calls)) as (_ & Hj' & _).
    rewrite Hj'. pose proof (gradient_calls_nonneg more). lia.
  - rewrite Hs. exact Hst.
Qed.

(** ** Hessians must come together (C4) *)

Lemma init_constraints_result (cs : list constraint) :
  forall self0 : IpoptProblemWrapper,
    forallb con_jac_accepted cs = true ->
    if hessian_mismatch (obj_hess self0) cs
    then exists msg, init_constraints self0 cs = Raise (NotImplementedError msg)
    else exists self, init_constraints self0 cs = Ok self.
Proof.
  induction cs as [|con rest IH]; intros self0 Hacc.
  - simpl. now exists self0.
  - simpl in Hacc. apply andb_true_iff in Hacc as [Hcon Hrest].
    cbn [hessian_mismatch existsb init_constraints].
    unfold init_constraint.
    assert (Hjac : exists fj,
               match con_eval con with
               | ConFun f JacNone => Ok (f, ApproxFprime)
               | ConFun f JacFalse =>
                   Raise (NotImplementedError "jac has to be bool or a function")
               | ConFun f (JacFun con_jac) => Ok (f, Callable con_jac)
               | ConFun f (JacObject _) =>
                   Raise (NotImplementedError "jac has to be bool or a function")
               | ConFunWithJac f => Ok (MemoizeJac_call f, Derivative f)
               end = Ok fj).
    { unfold con_jac_accepted in Hcon.
      destruct (con_eval con) as [f [| |j|t]|f]; try discriminate; eauto. }
    destruct Hjac as [fj ->]. cbn [rbind].
    destruct (obj_hess self0) as [h|] eqn:Hobj, (con_hess con) as [g|] eqn:Hcon';
      cbn [is_some xorb orb rbind].
    + specialize (IH (append_constraint self0 (fst fj) (snd fj) con) Hrest).
      cbn [obj_hess append_constraint] in IH. rewrite Hobj in IH. exact IH.
    + eauto.
    + eauto.
    + specialize (IH (append_constraint self0 (fst fj) (snd fj) con) Hrest).
      cbn [obj_hess append_constraint] in IH. rewrite Hobj in IH. exact IH.
Qed.

(** C4, as the code has it. With [hessp] [None] and every ['jac'] (the
    objective's and each group's) missing, [None], [True] or a callable,
    [__init__] raises [NotImplementedError] exactly when the objective and
    some group differ in supplying a Hessian; otherwise it returns the
    adapter. The error comes out of the constructor, so no adapter exists for
    a solver to call. *)
Theorem init_raises_iff_hessian_mismatch
  (fun_ : objective_fun) (args : list Arg) (kwargs : option kw)
  (hess : option (list float -> list (list float)))
  (con_list : constraints_arg) (eps : float) (con_dims : list nat)
  (sparse_jacs : list bool) (jac_nnz_row jac_nnz_col : list nat) :
  obj_jac_accepted fun_ = true ->
  forallb con_jac_accepted (as_tuple con_list) = true ->
  ((exists msg,
       __init__ fun_ args kwargs hess None con_list eps con_dims sparse_jacs
                jac_nnz_row jac_nnz_col = Raise (NotImplementedError msg))
   <-> hessian_mismatch hess (as_tuple con_list) = true)
  /\ (hessian_mismatch hess (as_tuple con_list) = false ->
      exists self,
        __init__ fun_ args kwargs hess None con_list eps con_dims sparse_jacs
                 jac_nnz_row jac_nnz_col = Ok self).
Proof.
  intros Hobj Hcons.
  unfold __init__. cbn [SCIPY_INSTALLED negb].
  assert (Hjac : exists fj,
             match fun_ with
             | Fun f JacNone =>
                 Ok (f, fun x0 a k =>
                          approx_fprime x0 (fun y => np.Scalar (f y a k)) eps)
             | Fun f JacFalse =>
                 Raise (NotImplementedError "jac has to be bool or a function")
             | Fun f (JacFun j) => Ok (f, j)
             | Fun f (JacObject _) =>
                 Raise (NotImplementedError "jac has to be bool or a function")
             | FunWithGrad f =>
                 Ok (MemoizeJac_call_kw f, MemoizeJac_derivative_kw f)
             end = Ok fj).
  { unfold obj_jac_accepted in Hobj.
    destruct fun_ as [f [| |j|t]|f]; try discriminate; eauto. }
  destruct Hjac as [fj ->]. cbn [rbind].
  match goal with
  | |- context [init_constraints ?s _] =>
      pose proof (init_constraints_result (as_tuple con_list) s Hcons) as Hres
  end.
  cbn [obj_hess] in Hres.
  destruct (hessian_mismatch hess (as_tuple con_list)).
  - split; [split; [reflexivity | intros _; exact Hres] | discriminate].
  - destruct Hres as [self Hself]. rewrite Hself.
    split; [split; [intros [msg Hmsg]; discriminate | discriminate]
           | intros _; now exists self].
Qed.

(** ** Stacked constraint values (C1, C5) *)

Lemma combine_map {A B C : Type} (f : A -> B) (g : A -> C) (l : list A) :
  combine (map f l) (map g l) = map (fun a => (f a, g a)) l.
Proof. induction l as [|a l IH]; simpl; [reflexivity | now rewrite IH]. Qed.

(** What [constraints(x)] computes on the adapter of a successful
    [__init__]. *)
Lemma constraints_after_init
  (fun_ : objective_fun) (args : list Arg) (kwargs : option kw)
  (hess : option (list float -> list (list float)))
  (hessp : option (list float -> list float -> list float))
  (con_list : constraints_arg) (eps : float) (con_dims : list nat)
  (sparse_jacs : list bool) (jac_nnz_row jac_nnz_col : list nat)
  (self : IpoptProblemWrapper) (x : list float) :
  __init__ fun_ args kwargs hess hessp con_list eps con_dims sparse_jacs
           jac_nnz_row jac_nnz_col = Ok self ->
  constraints self x =
  np.hstack (map (fun con => group_value con x) (as_tuple con_list)).
Proof.
  intro Hinit.
  apply init_ok in Hinit as (_ & _ & _ & _ & _ & _ & Hf & Ha & _).
  unfold constraints. rewrite Hf, Ha, combine_map, map_map.
  f_equal. apply map_ext. intro con. cbn [fst snd].
  apply value_fun_group_value.
Qed.

Lemma slice_concat {A : Type} (ls : list (list A)) :
  forall (i : nat) (l : list A),
    nth_error ls i = Some l ->
    np.slice (list_sum (firstn i (map (@length A) ls)))
             (list_sum (firstn (S i) (map (@length A) ls)))
             (concat ls) = l.
Proof.
  induction ls as [|l0 rest IH]; intros i l Hnth.
  - now destruct i.
  - destruct i as [|i]; simpl in Hnth.
    + inversion Hnth; subst l0. unfold np.slice. simpl.
      rewrite Nat.add_0_r, Nat.sub_0_r.
      rewrite firstn_app, Nat.sub_diag, firstn_all. simpl.
      now rewrite app_nil_r.
    + specialize (IH i l Hnth). unfold np.slice in *.
      change (map (@length A) (l0 :: rest))
        with (length l0 :: map (@length A) rest).
      rewrite (firstn_cons i), (firstn_cons (S i)).
      replace (list_sum (length l0 :: firstn i (map (@length A) rest)))
        with (length l0 + list_sum (firstn i (map (@length A) rest)))
        by reflexivity.
      replace (list_sum (length l0 :: firstn (S i) (map (@length A) rest)))
        with (length l0 + list_sum (firstn (S i) (map (@length A) rest)))
        by reflexivity.
      remember (list_sum (firstn i (map (@length A) rest))) as st.
      remember (list_sum (firstn (S i) (map (@length A) rest))) as en.
      cbn [concat]. rewrite skipn_app, skipn_all2 by lia. cbn [app].
      replace (length l0 + st - length l0) with st by lia.
      replace (length l0 + en - (length l0 + st)) with (en - st) by lia.
      exact IH.
Qed.

Lemma length_concat_sum {A : Type} (ls : list (list A)) :
  length (concat ls) = list_sum (map (@length A) ls).
Proof.
  induction ls as [|l ls IH]; simpl; [reflexivity|].
  now rewrite length_app, IH.
Qed.

(** C1, as the code has it. For a list of at least one group whose values at
    [x] have the lengths measured at the initial point [x0] (the first half
    of the pair for ['jac': True]), [constraints(x)] is the concatenation of
    the groups' values in declaration order; its length is the sum of the
    discovered dimensions, and its slice at group [i]'s offsets is group
    [i]'s value at [x]. *)
Theorem constraints_stack_in_order
  (fun_ : objective_fun) (args : list Arg) (kwargs : option kw)
  (hess : option (list float -> list (list float)))
  (hessp : option (list float -> list float -> list float))
  (con_list : constraints_arg) (eps : float)
  (sparse_jacs : list bool) (jac_nnz_row jac_nnz_col : list nat)
  (self : IpoptProblemWrapper) (x0 x : list float) (dims : list nat) :
  as_tuple con_list <> [] ->
  (forall con, In con (as_tuple con_list) -> dimension x con = dimension x0 con) ->
  fst (run (get_constraint_dimensions con_list x0)) = Ok dims ->
  __init__ fun_ args kwargs hess hessp con_list eps dims sparse_jacs
           jac_nnz_row jac_nnz_col = Ok self ->
  exists v,
    constraints self x = Ok v
    /\ v = concat (map (fun con => np.atleast_1d (group_value con x))
                       (as_tuple con_list))
    /\ length v = list_sum dims
    /\ forall i con,
         nth_error (as_tuple con_list) i = Some con ->
         np.slice (offset dims i) (offset dims (S i)) v =
         np.atleast_1d (group_value con x).
Proof.
  intros Hne Hstable Hdims Hinit.
  unfold run in Hdims. rewrite get_constraint_dimensions_run in Hdims.
  cbn [fst] in Hdims. inversion Hdims as [Hd]. clear Hdims.
  assert (Hlens : map (dimension x0) (as_tuple con_list) =
                  map (@length float)
                      (map (fun con => np.atleast_1d (group_value con x))
                           (as_tuple con_list))).
  { rewrite map_map. apply map_ext_in. intros con Hin.
    rewrite <- (Hstable con Hin). reflexivity. }
  exists (concat (map (fun con => np.atleast_1d (group_value con x))
                      (as_tuple con_list))).
  repeat split.
  - rewrite (constraints_after_init _ _ _ _ _ _ _ _ _ _ _ _ x Hinit).
    unfold np.hstack. rewrite map_map.
    destruct (as_tuple con_list) as [|con rest]; [contradiction|reflexivity].
  - rewrite length_concat_sum. now rewrite Hlens.
  - intros i con Hnth. unfold offset. rewrite Hlens.
    apply slice_concat.
    rewrite nth_error_map, Hnth. reflexivity.
Qed.

(** With no group at all, [constraints(x)] and [jacobian(x)] hand
    [np.hstack] an empty list. *)
Lemma callbacks_without_groups
  (fun_ : objective_fun) (args : list Arg) (kwargs : option kw)
  (hess : option (list float -> list (list float)))
  (hessp : option (list float -> list float -> list float))
  (eps : float) (con_dims : list nat)
  (sparse_jacs : list bool) (jac_nnz_row jac_nnz_col : list nat)
  (self : IpoptProblemWrapper) (x : list float) :
  __init__ fun_ args kwargs hess hessp (Sequence []) eps con_dims sparse_jacs
           jac_nnz_row jac_nnz_col = Ok self ->
  constraints self x =
    Raise (ValueError "need at least one array to concatenate")
  /\ jacobian self x =
     Raise (ValueError "need at least one array to concatenate").
Proof.
  intro Hinit. split.
  - now rewrite (constraints_after_init _ _ _ _ _ _ _ _ _ _ _ _ x Hinit).
  - apply init_ok in Hinit as (_ & _ & _ & _ & _ & _ & _ & Ha & _ & Hj & _).
    unfold jacobian. rewrite Hj, Ha. reflexivity.
Qed.

(** ** Dense Jacobians: structure and values (C2) *)

Lemma map_const_repeat {A B : Type} (b : B) (l : list A) :
  map (fun _ => b) l = repeat b (length l).
Proof. induction l as [|a l IH]; simpl; [reflexivity | now rewrite IH]. Qed.

Lemma nonzero_row_ones (r : list float) :
  forall i j : nat,
    sparse.nonzero_row i j (map (fun _ => 1%float) r) =
    map (fun k => (i, k, 1%float)) (seq j (length r)).
Proof.
  induction r as [|v r IH]; intros i j; [reflexivity|].
  cbn [map sparse.nonzero_row length seq].
  change (1 =? 0)%float with false. cbn [app].
  now rewrite IH.
Qed.

Lemma nonzero_rows_ones (n : nat) (rows : list (list float)) :
  Forall (fun r => length r = n) rows ->
  forall s : nat,
    map (fun e : nat * nat * float => fst (fst e))
        (sparse.nonzero_rows s (np.ones_like rows)) =
      flat_map (fun i => repeat i n) (seq s (length rows))
    /\ map (fun e : nat * nat * float => snd (fst e))
           (sparse.nonzero_rows s (np.ones_like rows)) =
       concat (repeat (seq 0 n) (length rows)).
Proof.
  induction 1 as [|r rows Hr Hrows IH]; intro s; [now split|].
  destruct (IH (S s)) as [IHr IHc].
  unfold np.ones_like in *.
  cbn [map sparse.nonzero_rows length seq flat_map repeat concat].
  rewrite nonzero_row_ones, !map_app, !map_map, IHr, IHc, Hr.
  cbn [fst snd]. split; f_equal.
  - now rewrite (map_const_repeat s (seq 0 n)), length_seq.
  - now rewrite map_id.
Qed.

Lemma nth_error_repeat_eq {A : Type} (a x : A) (n k : nat) :
  nth_error (repeat a n) k = Some x -> x = a /\ k < n.
Proof.
  intro H. split.
  - apply nth_error_In in H. now apply repeat_spec in H.
  - rewrite <- (repeat_length a n). apply nth_error_Some. congruence.
Qed.

Lemma nth_error_seq_eq (s n k j : nat) :
  nth_error (seq s n) k = Some j -> j = s + k /\ k < n.
Proof.
  intro H.
  assert (Hk : k < n).
  { rewrite <- (length_seq n s). apply nth_error_Some. congruence. }
  split; [|exact Hk].
  apply (nth_error_nth _ _ 0) in H. now rewrite seq_nth in H.
Qed.

(** In the dense structure the [k]-th coordinate pair addresses the [k]-th
    entry of the row-major flattening. *)
Lemma dense_structure_addresses (n : nat) (rows : list (list float)) :
  Forall (fun r => length r = n) rows ->
  forall (s k i j : nat) (v : float),
    nth_error (flat_map (fun i => repeat i n) (seq s (length rows))) k = Some i ->
    nth_error (concat (repeat (seq 0 n) (length rows))) k = Some j ->
    nth_error (concat rows) k = Some v ->
    s <= i
    /\ exists r, nth_error rows (i - s) = Some r /\ nth_error r j = Some v.
Proof.
  induction 1 as [|r rows Hr Hrows IH]; intros s k i j v Hi Hj Hv.
  - now destruct k.
  - cbn [length seq flat_map repeat concat] in Hi, Hj, Hv.
    destruct (Nat.lt_ge_cases k n) as [Hlt|Hge].
    + rewrite nth_error_app1 in Hi by now rewrite repeat_length.
      rewrite nth_error_app1 in Hj by now rewrite length_seq.
      rewrite nth_error_app1 in Hv by lia.
      apply nth_error_repeat_eq in Hi as [-> _].
      apply nth_error_seq_eq in Hj as [-> _].
      split; [lia|]. exists r. now rewrite Nat.sub_diag.
    + rewrite nth_error_app2 in Hi by now rewrite repeat_length.
      rewrite nth_error_app2 in Hj by now rewrite length_seq.
      rewrite nth_error_app2 in Hv by lia.
      rewrite repeat_length in Hi. rewrite length_seq in Hj. rewrite Hr in Hv.
      destruct (IH (S s) (k - n) i j v Hi Hj Hv) as [Hle [r' [Hr' Hv']]].
      split; [lia|]. exists r'. split; [|exact Hv'].
      replace (i - s) with (S (i - S s)) by lia. exact Hr'.
Qed.

Lemma length_dense_rows (p n : nat) : length (dense_rows p n) = p * n.
Proof.
  unfold dense_rows. generalize 0 as s.
  induction p as [|p IH]; intro s; [reflexivity|].
  cbn [seq flat_map]. rewrite length_app, repeat_length, IH. lia.
Qed.

Lemma length_dense_cols (p n : nat) : length (dense_cols p n) = p * n.
Proof.
  unfold dense_cols.
  induction p as [|p IH]; [reflexivity|].
  cbn [repeat concat]. rewrite length_app, length_seq, IH. lia.
Qed.

Lemma length_ravel (p n : nat) (rows : list (list float)) :
  rectangular p n rows -> length (np.ravel rows) = p * n.
Proof.
  intros [<- Hall]. unfold np.ravel.
  induction Hall as [|r rows Hr Hrows IH]; [reflexivity|].
  cbn [concat length]. rewrite length_app, IH, Hr. lia.
Qed.

Lemma vstack_single (A : sparse.coo_array) :
  sparse.vstack [A] =
  Ok {| sparse.shape := sparse.shape A;
        sparse.row := sparse.row A;
        sparse.col := sparse.col A;
        sparse.data := sparse.data A |}.
Proof.
  unfold sparse.vstack, sparse.vstack_from. cbn.
  destruct A as [[r c] rows cols vals]. cbn.
  f_equal. f_equal.
  rewrite <- (map_id rows) at 2. apply map_ext. intro. lia.
Qed.

Lemma group_jacobian_callable (con : constraint) (x : list float)
  (jac_val : jac_value) :
  group_jacobian con x = Some jac_val -> has_uncallable_jac con = false.
Proof.
  unfold group_jacobian, has_uncallable_jac.
  destruct (con_eval con) as [f [| |j|t]|f]; try discriminate; reflexivity.
Qed.

Lemma call_jac_group_jacobian (self : IpoptProblemWrapper) (con : constraint)
  (x : list float) (jac_val : jac_value) :
  group_jacobian con x = Some jac_val ->
  call_jac self (closure_of con) x (con_args con) = Ok jac_val.
Proof.
  unfold group_jacobian, closure_of, call_jac, MemoizeJac_derivative.
  destruct (con_eval con) as [f [| |j|t]|f]; try discriminate;
    now intros [= ->].
Qed.

(** C2. For a single group whose Jacobian evaluator gives a dense array of
    [p] rows and [n] columns at the initial point and at [x]: structure
    discovery flags the group as dense and returns every coordinate of the
    [p] x [n] block in row-major order, whatever the entries are (a zero
    entry keeps its place); [jacobian(x)] is the row-major flattening of the
    array at [x]; and the [k]-th value is the entry at the [k]-th coordinate
    pair. *)
Theorem dense_jacobian_structure_and_values
  (fun_ : objective_fun) (args : list Arg) (kwargs : option kw)
  (hess : option (list float -> list (list float)))
  (hessp : option (list float -> list float -> list float))
  (con_list : constraints_arg) (con : constraint) (eps : float)
  (con_dims : list nat) (self : IpoptProblemWrapper) (x0 x : list float)
  (p n : nat) (J0 Jx : list (list float)) :
  as_tuple con_list = [con] ->
  group_jacobian con x0 = Some (Dense (np.Array2 J0)) ->
  rectangular p n J0 ->
  group_jacobian con x = Some (Dense (np.Array2 Jx)) ->
  rectangular p n Jx ->
  fst (run (_get_sparse_jacobian_structure con_list x0)) =
    Ok ([false], dense_rows p n, dense_cols p n)
  /\ (__init__ fun_ args kwargs hess hessp con_list eps con_dims [false]
               (dense_rows p n) (dense_cols p n) = Ok self ->
      jacobianstructure self = (dense_rows p n, dense_cols p n)
      /\ jacobian self x = Ok (np.ravel Jx)
      /\ length (dense_rows p n) = p * n
      /\ length (dense_cols p n) = p * n
      /\ length (np.ravel Jx) = p * n
      /\ forall (k i j : nat) (v : float),
           nth_error (dense_rows p n) k = Some i ->
           nth_error (dense_cols p n) k = Some j ->
           nth_error (np.ravel Jx) k = Some v ->
           np.getitem2 Jx (i, j) = Ok v).
Proof.
  intros Hcs HJ0 [Hp0 Hn0] HJx [Hpx Hnx]. split.
  - unfold run, _get_sparse_jacobian_structure. rewrite Hcs.
    unfold bind.
    rewrite jacobian_blocks_run
      by (cbn; now rewrite (group_jacobian_callable con x0 _ HJ0)).
    cbn [map app fst snd lift].
    unfold structure_block. rewrite HJ0. cbn [block_of_jac_val fst snd].
    rewrite vstack_single. cbn [sparse.row sparse.col ret fst].
    unfold sparse.of_dense. cbn [sparse.row sparse.col np.atleast_2d].
    destruct (nonzero_rows_ones n J0 Hn0 0) as [Hr Hc].
    rewrite Hr, Hc, Hp0. reflexivity.
  - intro Hinit.
    apply init_ok in Hinit
      as (_ & _ & _ & Hsp & Hst & _ & _ & Ha & _ & Hj & _).
    rewrite Hcs in Ha, Hj. cbn [map] in Ha, Hj.
    split; [exact Hst|]. split.
    + unfold jacobian. rewrite Hj, Ha. cbn [combine jacobian_loop].
      rewrite Hsp. cbn [nth_error].
      rewrite (call_jac_group_jacobian self con x _ HJx).
      cbn [rbind np.atleast_2d app np.hstack map np.atleast_1d concat].
      now rewrite app_nil_r.
    + split; [apply length_dense_rows|].
      split; [apply length_dense_cols|].
      split; [now apply length_ravel|].
      intros k i j v Hi Hj' Hv.
      unfold dense_rows, dense_cols, np.ravel in *.
      rewrite <- Hpx in Hi, Hj'.
      destruct (dense_structure_addresses n Jx Hnx 0 k i j v Hi Hj' Hv)
        as [_ [r [Hr Hrv]]].
      rewrite Nat.sub_0_r in Hr.
      unfold np.getitem2. cbn [fst snd]. now rewrite Hr, Hrv.
Qed.

(** ** The Hessian of the Lagrangian (C3) *)

















(** ** Options (C7) and the returned point (C10) *)

Lemma okey_eqb_eq (a b : okey) : okey_eqb a b = true <-> a = b.
Proof.
  destruct a as [s|s], b as [t|t]; simpl; split; intro H;
    try discriminate; try (apply String.eqb_eq in H; now subst);
    inversion H; subst; apply String.eqb_refl.
Qed.

Lemma okey_eqb_refl (a : okey) : okey_eqb a a = true.
Proof. now apply okey_eqb_eq. Qed.

Lemma okey_eqb_neq (a b : okey) : okey_eqb a b = false <-> a <> b.
Proof.
  split.
  - intros H Heq. apply okey_eqb_eq in Heq. congruence.
  - intro H. destruct (okey_eqb a b) eqn:E; [|reflexivity].
    apply okey_eqb_eq in E. contradiction.
Qed.

Lemma dict_get_not_in (k : okey) (d : dict) :
  dict_in k d = false -> dict_get k d = None.
Proof.
  unfold dict_in, dict_get. induction d as [|kv d IH]; simpl; [reflexivity|].
  destruct (okey_eqb k (fst kv)); simpl; [discriminate | exact IH].
Qed.

Lemma dict_in_get (k : okey) (d : dict) :
  dict_in k d = is_some (dict_get k d).
Proof.
  unfold dict_in, dict_get. induction d as [|kv d IH]; simpl; [reflexivity|].
  destruct (okey_eqb k (fst kv)); simpl; [reflexivity | exact IH].
Qed.

Lemma dict_in_app (k : okey) (d e : dict) :
  dict_in k (d ++ e) = dict_in k d || dict_in k e.
Proof. unfold dict_in. apply existsb_app. Qed.

Lemma dict_in_set (k k' : okey) (v : pyval) (d : dict) :
  dict_in k (dict_set k' v d) = okey_eqb k k' || dict_in k d.
Proof.
  unfold dict_set. destruct (dict_in k' d) eqn:Hin.
  - destruct (okey_eqb k k') eqn:Hk.
    + apply okey_eqb_eq in Hk. subst k'. simpl.
      unfold dict_in in *. induction d as [|kv d IH]; simpl in *; [discriminate|].
      destruct (okey_eqb k (fst kv)) eqn:E; simpl.
      * now rewrite okey_eqb_refl.
      * rewrite E. simpl. auto.
    + simpl. unfold dict_in. clear Hin.
      induction d as [|kv d IH]; simpl; [reflexivity|].
      destruct (okey_eqb k' (fst kv)) eqn:E; simpl.
      * rewrite Hk. apply okey_eqb_eq in E. rewrite <- E, Hk. exact IH.
      * now rewrite IH.
  - rewrite dict_in_app. simpl. unfold dict_in at 2. simpl.
    rewrite orb_false_r. apply orb_comm.
Qed.

Lemma dict_in_pop (k k' : okey) (d : dict) :
  dict_in k (dict_pop k' d) = negb (okey_eqb k k') && dict_in k d.
Proof.
  unfold dict_in, dict_pop. induction d as [|kv d IH]; simpl.
  - now rewrite andb_false_r.
  - destruct (okey_eqb k' (fst kv)) eqn:E; simpl.
    + apply okey_eqb_eq in E. rewrite <- E, IH.
      now destruct (okey_eqb k k').
    + rewrite IH. destruct (okey_eqb k (fst kv)) eqn:E'; simpl.
      * apply okey_eqb_eq in E'. subst k.
        destruct (okey_eqb (fst kv) k') eqn:E''; [|reflexivity].
        apply okey_eqb_eq in E''. subst k'. now rewrite okey_eqb_refl in E.
      * reflexivity.
Qed.

Lemma dict_get_app_not_in (k : okey) (d e : dict) :
  dict_in k d = false -> dict_get k (d ++ e) = dict_get k e.
Proof.
  unfold dict_in, dict_get. induction d as [|kv d IH]; simpl; [reflexivity|].
  destruct (okey_eqb k (fst kv)); simpl; [discriminate | exact IH].
Qed.

Lemma dict_get_set_new (k : okey) (v : pyval) (d : dict) :
  dict_in k d = false -> dict_get k (dict_set k v d) = Some v.
Proof.
  intro Hin. unfold dict_set. rewrite Hin.
  rewrite dict_get_app_not_in by assumption.
  unfold dict_get. simpl. now rewrite okey_eqb_refl.
Qed.

Lemma dict_get_set_other (k k' : okey) (v : pyval) (d : dict) :
  okey_eqb k k' = false -> dict_get k (dict_set k' v d) = dict_get k d.
Proof.
  intro Hk. unfold dict_set. destruct (dict_in k' d).
  - unfold dict_get. induction d as [|kv d IH]; simpl; [reflexivity|].
    destruct (okey_eqb k' (fst kv)) eqn:E; simpl.
    + rewrite Hk. apply okey_eqb_eq in E. rewrite <- E, Hk. exact IH.
    + destruct (okey_eqb k (fst kv)); [reflexivity | exact IH].
  - unfold dict_get. induction d as [|kv d IH]; simpl.
    + now rewrite Hk.
    + destruct (okey_eqb k (fst kv)); [reflexivity | exact IH].
Qed.

Lemma dict_get_pop_other (k k' : okey) (d : dict) :
  okey_eqb k k' = false -> dict_get k (dict_pop k' d) = dict_get k d.
Proof.
  intro Hk. unfold dict_get, dict_pop.
  induction d as [|kv d IH]; simpl; [reflexivity|].
  destruct (okey_eqb k' (fst kv)) eqn:E; simpl.
  - apply okey_eqb_eq in E. rewrite <- E, Hk. exact IH.
  - destruct (okey_eqb k (fst kv)); [reflexivity | exact IH].
Qed.

Lemma replace_option_other (k oldname newname : okey) (d : dict) :
  okey_eqb k oldname = false -> okey_eqb k newname = false ->
  dict_get k (replace_option d oldname newname) = dict_get k d.
Proof.
  intros Ho Hn. unfold replace_option.
  destruct (dict_get oldname d); [|reflexivity].
  destruct (dict_in newname d); [reflexivity|].
  now rewrite dict_get_set_other, dict_get_pop_other.
Qed.

Lemma set_default_other (k key : okey) (v : pyval) (d : dict) :
  okey_eqb k key = false ->
  dict_get k (set_default key v d) = dict_get k d.
Proof.
  intro Hk. unfold set_default. destruct (dict_in key d); [reflexivity|].
  now apply dict_get_set_other.
Qed.

(** After [convert_to_bytes] the [bytes] name is present exactly when the
    caller gave the name as [bytes] or as [str]. *)
Lemma convert_fold_in (s : string) (ks : list okey) :
  forall d : dict,
    dict_in (Bytes s) (fold_left convert_key ks d) =
    dict_in (Bytes s) d || (existsb (okey_eqb (Str s)) ks && dict_in (Str s) d).
Proof.
  induction ks as [|key ks IH]; intro d; cbn [fold_left existsb].
  - now rewrite orb_false_r.
  - rewrite IH. destruct key as [t|t]; cbn [convert_key].
    + destruct (dict_get (Str t) d) as [v|] eqn:Hget.
      * rewrite !dict_in_pop, !dict_in_set. cbn [okey_eqb negb andb orb].
        destruct (String.eqb s t) eqn:Hst.
        -- apply String.eqb_eq in Hst. subst t.
           rewrite (dict_in_get (Str s) d), Hget. cbn.
           now rewrite orb_true_r.
        -- cbn. reflexivity.
      * cbn [okey_eqb]. destruct (String.eqb s t) eqn:Hst.
        -- apply String.eqb_eq in Hst. subst t.
           rewrite (dict_in_get (Str s) d), Hget. cbn.
           now rewrite !andb_false_r.
        -- reflexivity.
    + reflexivity.
Qed.

Lemma convert_to_bytes_in (s : string) (d : dict) :
  dict_in (Bytes s) (convert_to_bytes d) =
  dict_in (Str s) d || dict_in (Bytes s) d.
Proof.
  unfold convert_to_bytes. rewrite convert_fold_in.
  assert (H : existsb (okey_eqb (Str s)) (map fst d) = dict_in (Str s) d).
  { unfold dict_in. induction d as [|kv d IH]; simpl; [reflexivity|].
    now rewrite IH. }
  rewrite H. destruct (dict_in (Str s) d), (dict_in (Bytes s) d); reflexivity.
Qed.

(** The options just before the default for ['hessian_approximation'] is
    considered keep the caller's entry of that name, if any. *)
Lemma ipopt_options_hessian_approximation {H P : Type} (hess : option H)
  (hessp : option P) (tol : option float) (options : option dict) :
  dict_get (Bytes "hessian_approximation")
           (ipopt_options hess hessp tol options) =
  if caller_set_hessian_approximation options
  then dict_get (Bytes "hessian_approximation")
                (convert_to_bytes (or_empty options))
  else match hess, hessp with
       | None, None => Some (PyBytes "limited-memory")
       | _, _ => None
       end.
Proof.
  unfold ipopt_options, caller_set_hessian_approximation.
  rewrite <- convert_to_bytes_in.
  set (o1 := convert_to_bytes (or_empty options)).
  set (o2 := set_default _ _ (set_default _ _ (set_default _ _
               (replace_option (replace_option o1 _ _) _ _)))).
  assert (Hget : dict_get (Bytes "hessian_approximation") o2 =
                 dict_get (Bytes "hessian_approximation") o1).
  { unfold o2.
    rewrite !set_default_other by reflexivity.
    now rewrite !replace_option_other by reflexivity. }
  assert (Hin : dict_in (Bytes "hessian_approximation") o2 =
                dict_in (Bytes "hessian_approximation") o1).
  { now rewrite !dict_in_get, Hget. }
  rewrite Hin.
  destruct (dict_in (Bytes "hessian_approximation") o1) eqn:Ho1.
  - exact Hget.
  - rewrite <- Hin in Ho1.
    destruct hess, hessp; try (now apply dict_get_not_in).
    now apply dict_get_set_new.
Qed.

(** What a successful run of [minimize_ipopt] up to [nlp.solve] went
    through. *)
Lemma minimize_ipopt_nlp_ok (fun_ : objective_fun) (x0 : np.value)
  (args : list Arg) (kwargs : option kw)
  (hess : option (list float -> list (list float)))
  (hessp : option (list float -> list float -> list float))
  (bounds : option (list (float * float))) (con_list : constraints_arg)
  (tol : option float) (options : option dict)
  (nlp : Problem) (registered : dict) :
  minimize_ipopt_nlp fun_ x0 args kwargs hess hessp bounds con_list tol options
    = Ok (nlp, registered) ->
  registered = ipopt_options hess hessp tol options
  /\ exists con_dims sparse_jacs jac_nnz_row jac_nnz_col,
       __init__ fun_ args kwargs hess hessp con_list float_1e_8 con_dims
                sparse_jacs jac_nnz_row jac_nnz_col = Ok (nlp_problem_obj nlp).
Proof.
  unfold minimize_ipopt_nlp. cbn [SCIPY_INSTALLED negb].
  destruct (get_bounds bounds) as [lb ub].
  destruct (fst (run (probes con_list (np.atleast_1d x0))))
    as [[[[cl cu] con_dims] [[sparse_jacs jac_nnz_row] jac_nnz_col]]|e];
    cbn [rbind]; [|discriminate].
  destruct (__init__ _ _ _ _ _ _ _ _ _ _ _) as [problem|e] eqn:Hinit;
    cbn [rbind]; [|discriminate].
  destruct (add_options _) as [u|e]; cbn [rbind]; [|discriminate].
  intros [= <- <-]. split; [reflexivity|].
  now exists con_dims, sparse_jacs, jac_nnz_row, jac_nnz_col.
Qed.

(** C7. Whenever [minimize_ipopt] gets as far as handing options to the
    solver: if the caller has not set ['hessian_approximation'] (as [str] or
    as [bytes]), the option is registered as ['limited-memory'] exactly when
    neither the objective nor any constraint supplies a Hessian, and is not
    registered at all otherwise; if the caller has set it, the caller's entry
    is what is registered. *)
Theorem limited_memory_iff_no_hessian (fun_ : objective_fun) (x0 : np.value)
  (args : list Arg) (kwargs : option kw)
  (hess : option (list float -> list (list float)))
  (hessp : option (list float -> list float -> list float))
  (bounds : option (list (float * float))) (con_list : constraints_arg)
  (tol : option float) (options : option dict)
  (nlp : Problem) (registered : dict) :
  minimize_ipopt_nlp fun_ x0 args kwargs hess hessp bounds con_list tol options
    = Ok (nlp, registered) ->
  (caller_set_hessian_approximation options = false ->
   (dict_get (Bytes "hessian_approximation") registered =
      Some (PyBytes "limited-memory")
    <-> hess = None
        /\ forall con, In con (as_tuple con_list) -> con_hess con = None)
   /\ (dict_get (Bytes "hessian_approximation") registered =
         Some (PyBytes "limited-memory")
       \/ dict_get (Bytes "hessian_approximation") registered = None))
  /\ (caller_set_hessian_approximation options = true ->
      dict_get (Bytes "hessian_approximation") registered =
      dict_get (Bytes "hessian_approximation")
               (convert_to_bytes (or_empty options))).
Proof.
  intro Hnlp.
  apply minimize_ipopt_nlp_ok in Hnlp as [-> (con_dims & sj & r & c & Hinit)].
  apply init_ok in Hinit as (-> & _ & _ & _ & _ & _ & _ & _ & _ & _ & Hsome).
  rewrite ipopt_options_hessian_approximation.
  split; intro Hset; rewrite Hset; [|reflexivity].
  destruct hess as [h|].
  - split; [|now right]. split; [discriminate | intros [? _]; discriminate].
  - split; [|now left]. split; [|reflexivity].
    intros _. split; [reflexivity|].
    intros con Hin. specialize (Hsome con Hin).
    destruct (con_hess con); [discriminate | reflexivity].
Qed.

(** C10. When [minimize_ipopt] returns, the [x] of its result is the first
    component of the solver's point, as a scalar, if [x0] is a number or a
    0-d array, and the solver's point itself if [x0] is an array. *)
Theorem result_point_follows_x0 (fun_ : objective_fun) (x0 : np.value)
  (args : list Arg) (kwargs : option kw)
  (hess : option (list float -> list (list float)))
  (hessp : option (list float -> list float -> list float))
  (bounds : option (list (float * float))) (con_list : constraints_arg)
  (tol : option float) (options : option dict) (res : OptimizeResult) :
  minimize_ipopt fun_ x0 args kwargs hess hessp bounds con_list tol options
    = Ok res ->
  exists (nlp : Problem) (registered : dict),
    minimize_ipopt_nlp fun_ x0 args kwargs hess hessp bounds con_list tol
                       options = Ok (nlp, registered)
    /\ match x0 with
       | np.Scalar _ =>
           exists x_0 rest,
             snd (fst (nlp_solve nlp registered (np.atleast_1d x0)))
               = x_0 :: rest
             /\ res_x res = np.Scalar x_0
       | np.Vector _ =>
           res_x res =
           np.Vector (snd (fst (nlp_solve nlp registered (np.atleast_1d x0))))
       end.
Proof.
  unfold minimize_ipopt.
  destruct (minimize_ipopt_nlp _ _ _ _ _ _ _ _ _ _) as [[nlp registered]|e];
    cbn [rbind fst snd]; [|discriminate].
  intro Hres. exists nlp, registered. split; [reflexivity|].
  destruct (nlp_solve nlp registered (np.atleast_1d x0)) as [[calls x] inf].
  cbn [fst snd].
  destruct x0 as [v|l].
  - destruct x as [|x_0 rest]; cbn [rbind] in Hres; [discriminate|].
    inversion Hres; subst. now exists x_0, rest.
  - cbn [rbind] in Hres. inversion Hres; subst. reflexivity.
Qed.

(** ** Option translation *)

Lemma dict_get_set_same (k : okey) (v : pyval) (d : dict) :
  dict_get k (dict_set k v d) = Some v.
Proof.
  destruct (dict_in k d) eqn:Hin; [|now apply dict_get_set_new].
  unfold dict_set. rewrite Hin. unfold dict_in, dict_get in *.
  induction d as [|kv d IH]; simpl in *; [discriminate|].
  destruct (okey_eqb k (fst kv)) eqn:E; simpl.
  - now rewrite okey_eqb_refl.
  - rewrite E. now apply IH.
Qed.

Lemma dict_get_pop_same (k : okey) (d : dict) :
  dict_get k (dict_pop k d) = None.
Proof.
  apply dict_get_not_in. rewrite dict_in_pop, okey_eqb_refl. reflexivity.
Qed.

Lemma replace_option_new (oldname newname : okey) (d : dict) :
  dict_get newname (replace_option d oldname newname) =
  if dict_in oldname d && negb (dict_in newname d)
  then dict_get oldname d
  else dict_get newname d.
Proof.
  unfold replace_option. rewrite (dict_in_get oldname d).
  destruct (dict_get oldname d) as [v|]; cbn [is_some andb]; [|reflexivity].
  destruct (dict_in newname d); cbn [negb]; [reflexivity|].
  apply dict_get_set_same.
Qed.

Lemma replace_option_old (oldname newname : okey) (d : dict) :
  okey_eqb oldname newname = false ->
  dict_get oldname (replace_option d oldname newname) =
  if dict_in oldname d && negb (dict_in newname d)
  then None
  else dict_get oldname d.
Proof.
  intro Hon. unfold replace_option. rewrite (dict_in_get oldname d).
  destruct (dict_get oldname d) as [v|] eqn:Hold; cbn [is_some andb];
    [|now rewrite Hold].
  destruct (dict_in newname d); cbn [negb]; [exact Hold|].
  rewrite dict_get_set_other by exact Hon. apply dict_get_pop_same.
Qed.

(** [replace_option] moves the value of [oldname] to [newname] when
    [oldname] is present and [newname] is not, and changes nothing otherwise:
    a name already present wins, and the alias then stays in the dictionary
    next to it. No other key is touched. *)
Theorem replace_option_lookup (options : dict) (oldname newname k : okey) :
  dict_get k (replace_option options oldname newname) =
  if dict_in oldname options && negb (dict_in newname options)
  then if okey_eqb k newname then dict_get oldname options
       else if okey_eqb k oldname then None
            else dict_get k options
  else dict_get k options.
Proof.
  destruct (okey_eqb k newname) eqn:Hkn.
  - apply okey_eqb_eq in Hkn. subst k. rewrite replace_option_new.
    now destruct (dict_in oldname options && negb (dict_in newname options)).
  - destruct (okey_eqb k oldname) eqn:Hko.
    + apply okey_eqb_eq in Hko. subst k.
      rewrite replace_option_old by exact Hkn.
      now destruct (dict_in oldname options && negb (dict_in newname options)).
    + rewrite replace_option_other by assumption.
      now destruct (dict_in oldname options && negb (dict_in newname options)).
Qed.

Lemma convert_fold_lookup (s : string) (ks : list okey) :
  forall d : dict,
    dict_get (Str s) (fold_left convert_key ks d) =
      (if existsb (okey_eqb (Str s)) ks then None else dict_get (Str s) d)
    /\ dict_get (Bytes s) (fold_left convert_key ks d) =
       (if existsb (okey_eqb (Str s)) ks
        then match dict_get (Str s) d with
             | Some v => Some v
             | None => dict_get (Bytes s) d
             end
        else dict_get (Bytes s) d).
Proof.
  induction ks as [|key ks IH]; intro d; cbn [fold_left existsb]; [now split|].
  destruct (IH (convert_key d key)) as [IHs IHb]. rewrite IHs, IHb. clear IH IHs IHb.
  destruct key as [t|t]; cbn [convert_key okey_eqb orb]; [|now split].
  destruct (String.eqb s t) eqn:Hst; cbn [orb].
  - apply String.eqb_eq in Hst. subst t.
    destruct (dict_get (Str s) d) as [v|] eqn:Hget.
    + rewrite dict_get_pop_same.
      rewrite (dict_get_pop_other (Bytes s) (Str s)) by reflexivity.
      rewrite dict_get_set_same.
      split; destruct (existsb _ ks); reflexivity.
    + rewrite Hget. split; destruct (existsb _ ks); reflexivity.
  - assert (Hs : dict_get (Str s) (match dict_get (Str t) d with
                                   | Some v => dict_pop (Str t)
                                                 (dict_set (Bytes t) v d)
                                   | None => d
                                   end) = dict_get (Str s) d).
    { destruct (dict_get (Str t) d); [|reflexivity].
      rewrite dict_get_pop_other by exact Hst.
      now rewrite dict_get_set_other by reflexivity. }
    assert (Hb : dict_get (Bytes s) (match dict_get (Str t) d with
                                     | Some v => dict_pop (Str t)
                                                   (dict_set (Bytes t) v d)
                                     | None => d
                                     end) = dict_get (Bytes s) d).
    { destruct (dict_get (Str t) d); [|reflexivity].
      rewrite dict_get_pop_other by reflexivity.
      now rewrite dict_get_set_other by exact Hst. }
    now rewrite Hs, Hb.
Qed.

(** After [convert_to_bytes] no [str] key is left, and the [bytes] key of a
    name holds the value the caller gave under the [str] key if there was
    one (also when a [bytes] key of that name was given as well), and the
    value given under the [bytes] key otherwise. *)
Theorem convert_to_bytes_lookup (options : dict) (s : string) :
  dict_get (Str s) (convert_to_bytes options) = None
  /\ dict_get (Bytes s) (convert_to_bytes options) =
     match dict_get (Str s) options with
     | Some v => Some v
     | None => dict_get (Bytes s) options
     end.
Proof.
  unfold convert_to_bytes.
  assert (H : existsb (okey_eqb (Str s)) (map fst options) =
              is_some (dict_get (Str s) options)).
  { rewrite <- dict_in_get. unfold dict_in.
    induction options as [|kv d IH]; simpl; [reflexivity | now rewrite IH]. }
  destruct (convert_fold_lookup s (map fst options) options) as [Hs Hb].
  rewrite Hs, Hb, H. destruct (dict_get (Str s) options); now split.
Qed.

Lemma set_default_same (k : okey) (v : pyval) (d : dict) :
  dict_get k (set_default k v d) =
  match dict_get k d with
  | Some w => Some w
  | None => Some v
  end.
Proof.
  unfold set_default. rewrite (dict_in_get k d).
  destruct (dict_get k d) as [w|] eqn:Hget; cbn [is_some].
  - exact Hget.
  - apply dict_get_set_same.
Qed.

Lemma ipopt_options_tail {H P : Type} (hess : option H) (hessp : option P)
  (k : okey) (d : dict) :
  okey_eqb k (Bytes "hessian_approximation") = false ->
  dict_get k
    (if dict_in (Bytes "hessian_approximation") d then d
     else match hess, hessp with
          | None, None =>
              dict_set (Bytes "hessian_approximation")
                       (PyBytes "limited-memory") d
          | _, _ => d
          end) = dict_get k d.
Proof.
  intro Hk. destruct (dict_in _ d); [reflexivity|].
  destruct hess, hessp; try reflexivity.
  now apply dict_get_set_other.
Qed.

(** The aliases of [minimize_ipopt]. ['print_level'] is the caller's
    ['print_level'] if given, else the caller's ['disp'] if given, else 0;
    ['max_iter'] is the caller's ['max_iter'], else the caller's ['maxiter'],
    else absent. An alias is removed only when it was moved: given together
    with the native name it is handed to the solver as it is. *)
Theorem aliases_are_renamed {H P : Type} (hess : option H) (hessp : option P)
  (tol : option float) (options : option dict) :
  dict_get (Bytes "print_level") (ipopt_options hess hessp tol options) =
    match dict_get (Bytes "print_level") (convert_to_bytes (or_empty options)) with
    | Some v => Some v
    | None =>
        match dict_get (Bytes "disp") (convert_to_bytes (or_empty options)) with
        | Some v => Some v
        | None => Some (PyInt 0)
        end
    end
  /\ dict_get (Bytes "disp") (ipopt_options hess hessp tol options) =
     (if dict_in (Bytes "print_level") (convert_to_bytes (or_empty options))
      then dict_get (Bytes "disp") (convert_to_bytes (or_empty options))
      else None)
  /\ dict_get (Bytes "max_iter") (ipopt_options hess hessp tol options) =
     match dict_get (Bytes "max_iter") (convert_to_bytes (or_empty options)) with
     | Some v => Some v
     | None => dict_get (Bytes "maxiter") (convert_to_bytes (or_empty options))
     end
  /\ dict_get (Bytes "maxiter") (ipopt_options hess hessp tol options) =
     (if dict_in (Bytes "max_iter") (convert_to_bytes (or_empty options))
      then dict_get (Bytes "maxiter") (convert_to_bytes (or_empty options))
      else None).
Proof.
  unfold ipopt_options.
  set (o := convert_to_bytes (or_empty options)).
  repeat split; rewrite ipopt_options_tail by reflexivity.
  - rewrite !set_default_other by reflexivity.
    rewrite set_default_same.
    rewrite replace_option_other by reflexivity.
    rewrite replace_option_new, !(dict_in_get _ o).
    destruct (dict_get (Bytes "print_level") o), (dict_get (Bytes "disp") o);
      reflexivity.
  - rewrite !set_default_other by reflexivity.
    rewrite replace_option_other by reflexivity.
    rewrite replace_option_old by reflexivity. rewrite !(dict_in_get _ o).
    destruct (dict_get (Bytes "print_level") o), (dict_get (Bytes "disp") o);
      reflexivity.
  - rewrite !set_default_other by reflexivity.
    rewrite replace_option_new, !dict_in_get.
    rewrite !replace_option_other by reflexivity.
    destruct (dict_get (Bytes "max_iter") o), (dict_get (Bytes "maxiter") o);
      reflexivity.
  - rewrite !set_default_other by reflexivity.
    rewrite replace_option_old by reflexivity. rewrite !dict_in_get.
    rewrite !replace_option_other by reflexivity.
    destruct (dict_get (Bytes "max_iter") o), (dict_get (Bytes "maxiter") o);
      reflexivity.
Qed.

(** The defaults of [minimize_ipopt]. An entry of the caller wins; without
    one, ['tol'] is the [tol] argument, or [1e-8] when that is [None] or
    zero, and ['mu_strategy'] is ['adaptive']. *)
Theorem tol_and_mu_strategy_defaults {H P : Type} (hess : option H)
  (hessp : option P) (tol : option float) (options : option dict) :
  dict_get (Bytes "tol") (ipopt_options hess hessp tol options) =
    match dict_get (Bytes "tol") (convert_to_bytes (or_empty options)) with
    | Some v => Some v
    | None =>
        Some (PyFloat match tol with
                      | Some t => if (t =? 0)%float then float_1e_8 else t
                      | None => float_1e_8
                      end)
    end
  /\ dict_get (Bytes "mu_strategy") (ipopt_options hess hessp tol options) =
     match dict_get (Bytes "mu_strategy") (convert_to_bytes (or_empty options)) with
     | Some v => Some v
     | None => Some (PyBytes "adaptive")
     end.
Proof.
  unfold ipopt_options, tol_or_default.
  set (o := convert_to_bytes (or_empty options)).
  split; rewrite ipopt_options_tail by reflexivity.
  - rewrite set_default_other by reflexivity.
    rewrite set_default_same.
    rewrite set_default_other by reflexivity.
    now rewrite !replace_option_other by reflexivity.
  - rewrite set_default_same.
    rewrite !set_default_other by reflexivity.
    now rewrite !replace_option_other by reflexivity.
Qed.

(** ** What [minimize_ipopt] hands over and reports *)

Lemma jacobian_block_appends (i : nat) (con : constraint) (x0 : list float) :
  exists r evs, forall tr, jacobian_block i con x0 tr = (r, tr ++ evs).
Proof.
  unfold jacobian_block, bind, call, ret, raise.
  destruct (con_eval con) as [f [| |j|[|]]|f];
    try (eexists; eexists; intro tr; reflexivity).
  exists (Raise (TypeError "object is not callable")), [].
  intro tr. now rewrite app_nil_r.
Qed.

Lemma jacobian_blocks_result (cs : list constraint) :
  forall (i : nat) (x0 : list float) (flags : list bool)
         (jacobians : list sparse.coo_array) (tr tr' : list event),
    fst (jacobian_blocks i cs x0 flags jacobians tr) =
    fst (jacobian_blocks i cs x0 flags jacobians tr').
Proof.
  induction cs as [|con rest IH]; intros i x0 flags jacobians tr tr';
    [reflexivity|].
  cbn [jacobian_blocks]. unfold bind.
  destruct (jacobian_block_appends i con x0) as [r [evs Hrun]].
  rewrite (Hrun tr), (Hrun tr').
  destruct r as [b|e]; [apply IH | reflexivity].
Qed.

(** What structure discovery returns does not depend on the calls logged
    before it. *)
Lemma structure_result (con_list : constraints_arg) (x0 : list float)
  (tr : list event) :
  fst (_get_sparse_jacobian_structure con_list x0 tr) =
  fst (run (_get_sparse_jacobian_structure con_list x0)).
Proof.
  unfold run, _get_sparse_jacobian_structure.
  destruct (as_tuple con_list) as [|con rest]; [reflexivity|].
  unfold bind.
  pose proof (jacobian_blocks_result (con :: rest) 0 x0 [] [] tr []) as Hfst.
  destruct (jacobian_blocks 0 (con :: rest) x0 [] [] tr) as [[bj|e] tr1],
           (jacobian_blocks 0 (con :: rest) x0 [] [] []) as [[bj'|e'] tr2];
    cbn [fst] in Hfst; try discriminate; inversion Hfst; subst;
    [|reflexivity].
  unfold lift. now destruct (sparse.vstack (snd bj')).
Qed.

(** What the three probes return when they all return. *)
Lemma probes_ok (con_list : constraints_arg) (x0 : list float)
  (cl cu : list float) (con_dims : list nat)
  (structure : list bool * list nat * list nat) :
  fst (run (probes con_list x0)) = Ok (cl, cu, con_dims, structure) ->
  forallb recognized (as_tuple con_list) = true
  /\ cl = flat_map (fun con => np.zeros (dimension x0 con)) (as_tuple con_list)
  /\ cu = flat_map (upper_bounds INF_default x0) (as_tuple con_list)
  /\ con_dims = map (dimension x0) (as_tuple con_list)
  /\ fst (run (_get_sparse_jacobian_structure con_list x0)) = Ok structure.
Proof.
  unfold run at 1. unfold probes, bind, get_constraint_bounds.
  destruct (find (fun con => negb (recognized con)) (as_tuple con_list))
    as [bad|] eqn:Hfind.
  - pose proof (get_constraint_bounds_loop_raise (as_tuple con_list) 0 x0
                  INF_default [] [] [] bad Hfind) as Hraise.
    destruct (get_constraint_bounds_loop 0 (as_tuple con_list) x0 INF_default
                [] [] []) as [[clcu|e] tr]; cbn [fst] in *; discriminate.
  - apply find_none_forallb in Hfind.
    rewrite get_constraint_bounds_loop_ok by assumption.
    rewrite get_constraint_dimensions_run.
    match goal with
    | |- context [_get_sparse_jacobian_structure con_list x0 ?t] =>
        pose proof (structure_result con_list x0 t) as Hst;
        destruct (_get_sparse_jacobian_structure con_list x0 t) as [[st|e] tr']
    end; cbn [fst snd app] in *; [|discriminate].
    unfold ret. cbn [fst]. intros [= <- <- <- <-].
    repeat split; auto.
Qed.

Lemma init_accepts (fun_ : objective_fun) (args : list Arg) (kwargs : option kw)
  (hess : option (list float -> list (list float)))
  (hessp : option (list float -> list float -> list float))
  (con_list : constraints_arg) (eps : float) (con_dims : list nat)
  (sparse_jacs : list bool) (jac_nnz_row jac_nnz_col : list nat)
  (self : IpoptProblemWrapper) :
  __init__ fun_ args kwargs hess hessp con_list eps con_dims sparse_jacs
           jac_nnz_row jac_nnz_col = Ok self ->
  obj_jac_accepted fun_ = true
  /\ forallb con_jac_accepted (as_tuple con_list) = true
  /\ hessian_mismatch hess (as_tuple con_list) = false.
Proof.
  unfold __init__. cbn [SCIPY_INSTALLED negb].
  destruct hessp as [p|]; [discriminate|].
  destruct fun_ as [f [| |j|t]|f]; cbn [rbind obj_jac_accepted];
    try discriminate; intro Hinit;
    apply init_constraints_ok in Hinit
      as (_ & _ & _ & _ & _ & _ & _ & _ & _ & Hacc & Hin);
    cbn [obj_hess] in Hin; (split; [reflexivity|]); (split; [exact Hacc|]);
    unfold hessian_mismatch;
    apply not_true_is_false; intro Hex;
    apply existsb_exists in Hex as [con [Hcon Hx]];
    rewrite (Hin con Hcon) in Hx; now destruct (is_some (con_hess con)).
Qed.

Lemma add_options_ok (items : dict) :
  add_options items = Ok tt <->
  forallb (fun kv => add_option_accepts (fst kv) (snd kv)) items = true.
Proof.
  induction items as [|[option value] rest IH]; cbn; [now split|].
  destruct (add_option_accepts option value); cbn; [exact IH|].
  split; discriminate.
Qed.

(** Everything a successful run of [minimize_ipopt] up to [nlp.solve] went
    through. *)
Lemma minimize_ipopt_nlp_inv (fun_ : objective_fun) (x0 : np.value)
  (args : list Arg) (kwargs : option kw)
  (hess : option (list float -> list (list float)))
  (hessp : option (list float -> list float -> list float))
  (bounds : option (list (float * float))) (con_list : constraints_arg)
  (tol : option float) (options : option dict)
  (nlp : Problem) (registered : dict) :
  minimize_ipopt_nlp fun_ x0 args kwargs hess hessp bounds con_list tol options
    = Ok (nlp, registered) ->
  exists cl cu con_dims sparse_jacs jac_nnz_row jac_nnz_col,
    fst (run (probes con_list (np.atleast_1d x0))) =
      Ok (cl, cu, con_dims, (sparse_jacs, jac_nnz_row, jac_nnz_col))
    /\ __init__ fun_ args kwargs hess hessp con_list float_1e_8 con_dims
                sparse_jacs jac_nnz_row jac_nnz_col = Ok (nlp_problem_obj nlp)
    /\ nlp_n nlp = length (np.atleast_1d x0)
    /\ nlp_m nlp = length cl
    /\ (nlp_lb nlp, nlp_ub nlp) = get_bounds bounds
    /\ nlp_cl nlp = cl
    /\ nlp_cu nlp = cu
    /\ registered = ipopt_options hess hessp tol options
    /\ add_options registered = Ok tt.
Proof.
  unfold minimize_ipopt_nlp. cbn [SCIPY_INSTALLED negb].
  destruct (get_bounds bounds) as [lb ub].
  destruct (fst (run (probes con_list (np.atleast_1d x0))))
    as [[[[cl cu] con_dims] [[sparse_jacs jac_nnz_row] jac_nnz_col]]|e];
    cbn [rbind]; [|discriminate].
  destruct (__init__ _ _ _ _ _ _ _ _ _ _ _) as [problem|e] eqn:Hinit;
    cbn [rbind]; [|discriminate].
  destruct (add_options _) as [[]|e] eqn:Hadd; cbn [rbind]; [|discriminate].
  intros [= <- <-].
  exists cl, cu, con_dims, sparse_jacs, jac_nnz_row, jac_nnz_col.
  cbn. repeat split; auto.
Qed.

Lemma length_flat_map_repeat {A : Type} (f : A -> nat) (g : A -> list float)
  (l : list A) :
  (forall a, length (g a) = f a) ->
  length (flat_map g l) = list_sum (map f l).
Proof.
  intro Hg. induction l as [|a l IH]; [reflexivity|].
  cbn [flat_map map]. rewrite length_app, Hg, IH. reflexivity.
Qed.

Lemma length_upper_bounds (INF : float) (x0 : list float) (con : constraint) :
  length (upper_bounds INF x0 con) = dimension x0 con.
Proof.
  unfold upper_bounds, np.zeros, np.ones.
  destruct (String.eqb (con_type con) "eq");
    now rewrite ?length_map, repeat_length.
Qed.

(** The sizes [minimize_ipopt] gives the solver agree with each other: [n]
    is the length of the initial point taken as a 1-d array (1 for a
    number); [m] is the sum of the dimensions handed to the adapter, which
    are the groups' dimensions at the initial point; both bound arrays have
    length [m]. *)
Theorem solver_sizes_agree (fun_ : objective_fun) (x0 : np.value)
  (args : list Arg) (kwargs : option kw)
  (hess : option (list float -> list (list float)))
  (hessp : option (list float -> list float -> list float))
  (bounds : option (list (float * float))) (con_list : constraints_arg)
  (tol : option float) (options : option dict)
  (nlp : Problem) (registered : dict) :
  minimize_ipopt_nlp fun_ x0 args kwargs hess hessp bounds con_list tol options
    = Ok (nlp, registered) ->
  nlp_n nlp = length (np.atleast_1d x0)
  /\ _constraint_dims (nlp_problem_obj nlp) =
     map (dimension (np.atleast_1d x0)) (as_tuple con_list)
  /\ nlp_m nlp = list_sum (_constraint_dims (nlp_problem_obj nlp))
  /\ length (nlp_cl nlp) = nlp_m nlp
  /\ length (nlp_cu nlp) = nlp_m nlp.
Proof.
  intro Hnlp.
  apply minimize_ipopt_nlp_inv in Hnlp
    as (cl & cu & dims & sj & r & c & Hprobes & Hinit & Hn & Hm & _ & Hcl & Hcu & _).
  apply probes_ok in Hprobes as (_ & -> & -> & -> & _).
  apply init_ok in Hinit as (_ & _ & Hd & _).
  rewrite Hd, Hm, Hcl, Hcu.
  rewrite (length_flat_map_repeat (dimension (np.atleast_1d x0)))
    by (intro; apply repeat_length).
  rewrite (length_flat_map_repeat (dimension (np.atleast_1d x0)))
    by (intro; apply length_upper_bounds).
  repeat split; auto.
Qed.

(** [minimize_ipopt] returns a result only for a configuration it accepts:
    no [hessp], every ['jac'] missing, [None], [True] or a callable, every
    constraint type recognized, Hessians supplied by the objective and by
    all constraints or by none, and every option accepted by the solver.
    Any other configuration ends in an exception. *)
Theorem result_needs_accepted_configuration (fun_ : objective_fun)
  (x0 : np.value) (args : list Arg) (kwargs : option kw)
  (hess : option (list float -> list (list float)))
  (hessp : option (list float -> list float -> list float))
  (bounds : option (list (float * float))) (con_list : constraints_arg)
  (tol : option float) (options : option dict) (res : OptimizeResult) :
  minimize_ipopt fun_ x0 args kwargs hess hessp bounds con_list tol options
    = Ok res ->
  hessp = None
  /\ obj_jac_accepted fun_ = true
  /\ forallb con_jac_accepted (as_tuple con_list) = true
  /\ forallb recognized (as_tuple con_list) = true
  /\ hessian_mismatch hess (as_tuple con_list) = false
  /\ forallb (fun kv => add_option_accepts (fst kv) (snd kv))
             (ipopt_options hess hessp tol options) = true.
Proof.
  unfold minimize_ipopt.
  destruct (minimize_ipopt_nlp _ _ _ _ _ _ _ _ _ _) as [[nlp registered]|e]
    eqn:Hnlp; cbn [rbind]; [|discriminate].
  intros _.
  apply minimize_ipopt_nlp_inv in Hnlp
    as (cl & cu & dims & sj & r & c & Hprobes & Hinit & _ & _ & _ & _ & _
        & -> & Hadd).
  apply probes_ok in Hprobes as (Hrec & _).
  pose proof (init_accepts _ _ _ _ _ _ _ _ _ _ _ _ Hinit) as (Hobj & Hcon & Hmis).
  apply init_ok in Hinit as (Hp & _).
  apply add_options_ok in Hadd.
  repeat split; assumption.
Qed.

Lemma invoke_all_nit (calls : list invocation) :
  forall self : IpoptProblemWrapper,
    nit (invoke_all self calls) = reported_iteration calls (nit self).
Proof.
  unfold invoke_all, reported_iteration.
  induction calls as [|c calls IH]; intro self; [reflexivity|].
  cbn [fold_left]. rewrite IH. f_equal. now destruct c.
Qed.

(** The record [minimize_ipopt] returns: [nfev] and [njev] are the numbers
    of objective and gradient evaluations the solver made, [nit] is the
    iteration count of the solver's last [intermediate] call (0 if it made
    none), [success] says whether the solver's status is 0, and status,
    message and objective value are the solver's. *)
Theorem result_reports_the_solver_run (fun_ : objective_fun) (x0 : np.value)
  (args : list Arg) (kwargs : option kw)
  (hess : option (list float -> list (list float)))
  (hessp : option (list float -> list float -> list float))
  (bounds : option (list (float * float))) (con_list : constraints_arg)
  (tol : option float) (options : option dict) (res : OptimizeResult) :
  minimize_ipopt fun_ x0 args kwargs hess hessp bounds con_list tol options
    = Ok res ->
  exists (nlp : Problem) (registered : dict) (calls : list invocation)
         (x : list float) (inf : info),
    minimize_ipopt_nlp fun_ x0 args kwargs hess hessp bounds con_list tol
                       options = Ok (nlp, registered)
    /\ nlp_solve nlp registered (np.atleast_1d x0) = (calls, x, inf)
    /\ res_nfev res = objective_calls calls
    /\ res_njev res = gradient_calls calls
    /\ res_nit res = reported_iteration calls 0
    /\ res_success res = (info_status inf =? 0)%Z
    /\ res_status res = info_status inf
    /\ res_message res = info_status_msg inf
    /\ res_fun res = info_obj_val inf
    /\ res_info res = inf.
Proof.
  unfold minimize_ipopt.
  destruct (minimize_ipopt_nlp _ _ _ _ _ _ _ _ _ _) as [[nlp registered]|e]
    eqn:Hnlp; cbn [rbind fst snd]; [|discriminate].
  destruct (nlp_solve nlp registered (np.atleast_1d x0)) as [[calls x] inf]
    eqn:Hsolve.
  intro Hres. exists nlp, registered, calls, x, inf.
  split; [reflexivity|]. split; [exact Hsolve|].
  apply minimize_ipopt_nlp_ok in Hnlp as [_ (dims & sj & r & c & Hinit)].
  apply init_ok in Hinit as (_ & _ & _ & _ & _ & (Hnf & Hnj & Hni) & _).
  destruct (invoke_all_counters calls (nlp_problem_obj nlp)) as (Hf & Hj & _).
  pose proof (invoke_all_nit calls (nlp_problem_obj nlp)) as Hi.
  rewrite Hnf in Hf. rewrite Hnj in Hj. rewrite Hni in Hi.
  destruct (match x0 with
            | np.Scalar _ => _
            | np.Vector _ => _
            end) as [x'|e]; cbn [rbind] in Hres; [|discriminate].
  inversion Hres; subst res. cbn.
  rewrite Hf, Hj, Hi. repeat split; lia.
Qed.

(** ** Edges of the adapter's callbacks *)

Lemma take_length (H : list (list float)) (idx : list (nat * nat)) :
  forall v, np.take H idx = Ok v -> length v = length idx.
Proof.
  induction idx as [|ij idx IH]; intros v Htake; cbn in Htake.
  - now inversion Htake.
  - destruct (np.getitem2 H ij) as [a|e]; cbn in Htake; [|discriminate].
    destruct (np.take H idx) as [vs|e]; cbn in Htake; [|discriminate].
    inversion Htake; subst. cbn. f_equal. now apply IH.
Qed.

Lemma length_tril_indices (n : nat) :
  2 * length (np.tril_indices n) = n * (n + 1).
Proof.
  unfold np.tril_indices.
  induction n as [|n IH]; [reflexivity|].
  rewrite seq_S, flat_map_app, length_app. cbn [flat_map Nat.add].
  rewrite app_nil_r, length_map, length_seq. lia.
Qed.

(** Whenever [hessian] returns, it returns [n (n + 1) / 2] values for an [x]
    of length [n]: one per entry of the lower triangle. *)
Theorem hessian_returns_a_triangle (self : IpoptProblemWrapper)
  (x lagrange : list float) (obj_factor : float) (v : list float) :
  hessian self x lagrange obj_factor = Ok v ->
  2 * length v = length x * (length x + 1).
Proof.
  unfold hessian.
  destruct (obj_hess self) as [h|]; [|discriminate].
  destruct (hessian_loop _ _ _) as [H|e]; cbn [rbind]; [|discriminate].
  intro Htake. apply take_length in Htake. rewrite Htake.
  apply length_tril_indices.
Qed.

(** An adapter built without an objective Hessian has no [hessian] to offer:
    [obj_hess] is [None], and calling it raises [TypeError] at every point,
    multiplier vector and objective factor. *)
Theorem hessian_needs_objective_hessian
  (fun_ : objective_fun) (args : list Arg) (kwargs : option kw)
  (hessp : option (list float -> list float -> list float))
  (con_list : constraints_arg) (eps : float) (con_dims : list nat)
  (sparse_jacs : list bool) (jac_nnz_row jac_nnz_col : list nat)
  (self : IpoptProblemWrapper) (x lagrange : list float) (obj_factor : float) :
  __init__ fun_ args kwargs None hessp con_list eps con_dims sparse_jacs
           jac_nnz_row jac_nnz_col = Ok self ->
  hessian self x lagrange obj_factor =
  Raise (TypeError "'NoneType' object is not callable").
Proof.
  intro Hinit. apply init_ok in Hinit as (_ & Hobj & _).
  unfold hessian. now rewrite Hobj.
Qed.

(** An adapter built with constraints but with the default, empty
    [sparse_jacs] cannot evaluate its Jacobian: [jacobian(x)] raises
    [IndexError] at the first group. *)
Theorem jacobian_needs_sparse_flags
  (fun_ : objective_fun) (args : list Arg) (kwargs : option kw)
  (hess : option (list float -> list (list float)))
  (hessp : option (list float -> list float -> list float))
  (con_list : constraints_arg) (eps : float) (con_dims : list nat)
  (jac_nnz_row jac_nnz_col : list nat)
  (self : IpoptProblemWrapper) (x : list float) :
  as_tuple con_list <> [] ->
  __init__ fun_ args kwargs hess hessp con_list eps con_dims []
           jac_nnz_row jac_nnz_col = Ok self ->
  jacobian self x = Raise (IndexError "index out of range").
Proof.
  intros Hne Hinit.
  apply init_ok in Hinit as (_ & _ & _ & Hsp & _ & _ & _ & Ha & _ & Hj & _).
  unfold jacobian. rewrite Hj, Ha.
  destruct (as_tuple con_list) as [|con rest]; [contradiction|].
  cbn [map combine jacobian_loop]. rewrite Hsp. reflexivity.
Qed.

(** [get_bounds] splits the pairs without reordering: zipping the lower and
    the upper bounds gives the pairs back, and both have one entry per
    pair. *)
Theorem get_bounds_unzips (bs : list (float * float)) :
  exists lb ub,
    get_bounds (Some bs) = (Some lb, Some ub)
    /\ length lb = length bs
    /\ length ub = length bs
    /\ combine lb ub = bs.
Proof.
  exists (map fst bs), (map snd bs).
  rewrite !length_map. repeat split.
  induction bs as [|[l u] bs IH]; [reflexivity|].
  cbn. now rewrite IH.
Qed.

(** ** The stacked Jacobian of several groups *)

Lemma combine_seq_shift {A : Type} (l : list A) :
  forall s n,
    combine (seq (S s) n) l =
    map (fun iB : nat * A => (S (fst iB), snd iB)) (combine (seq s n) l).
Proof.
  induction l as [|a l IH]; intros s n.
  - now rewrite !combine_nil.
  - destruct n as [|n]; [reflexivity|].
    cbn [seq combine map fst snd]. now rewrite IH.
Qed.

Lemma flat_map_map {A B C : Type} (h : A -> B) (g : B -> list C) (l : list A) :
  flat_map g (map h l) = flat_map (fun a => g (h a)) l.
Proof.
  induction l as [|a l IH]; [reflexivity|]. cbn. now rewrite IH.
Qed.

Lemma stacked_rows_cons (off : nat) (A : sparse.coo_array)
  (rest : list sparse.coo_array) :
  stacked_rows off (A :: rest) =
  map (fun r => r + off) (sparse.row A)
  ++ stacked_rows (off + fst (sparse.shape A)) rest.
Proof.
  unfold stacked_rows. cbn [length seq combine flat_map fst snd].
  f_equal.
  - apply map_ext. intro r. unfold row_offset. cbn. lia.
  - rewrite combine_seq_shift, flat_map_map. apply flat_map_ext.
    intros [i B]. cbn [fst snd]. apply map_ext. intro r.
    unfold row_offset. cbn [firstn map list_sum fold_right].
    change (fold_right Nat.add 0 ?l) with (list_sum l). lia.
Qed.

Lemma vstack_from_ok (blocks : list sparse.coo_array) :
  forall (off bcol : nat) (rows cols : list nat) (vals : list float)
         (J : sparse.coo_array),
    sparse.vstack_from off bcol rows cols vals blocks = Ok J ->
    sparse.row J = rows ++ stacked_rows off blocks
    /\ sparse.col J = cols ++ flat_map sparse.col blocks.
Proof.
  induction blocks as [|A rest IH]; intros off bcol rows cols vals J Hstack.
  - cbn in Hstack. inversion Hstack; subst. cbn. now rewrite !app_nil_r.
  - cbn [sparse.vstack_from] in Hstack.
    destruct (negb (bcol =? 0) && negb (bcol =? snd (sparse.shape A)));
      [discriminate|].
    apply IH in Hstack as [Hr Hc].
    rewrite Hr, Hc, stacked_rows_cons. cbn [flat_map].
    now rewrite <- !app_assoc.
Qed.

Lemma jacobian_blocks_inv (cs : list constraint) :
  forall (i : nat) (x0 : list float) (flags : list bool)
         (jacobians : list sparse.coo_array) (tr : list event)
         (bj : list bool * list sparse.coo_array),
    fst (jacobian_blocks i cs x0 flags jacobians tr) = Ok bj ->
    forallb (fun con => negb (has_uncallable_jac con)) cs = true.
Proof.
  induction cs as [|con rest IH]; intros i x0 flags jacobians tr bj Hrun;
    [reflexivity|].
  cbn [jacobian_blocks forallb] in *. unfold bind in Hrun.
  destruct (has_uncallable_jac con) eqn:Hu.
  - exfalso. unfold has_uncallable_jac in Hu. unfold jacobian_block in Hrun.
    destruct (con_eval con) as [f [| |j|[|]]|f]; discriminate.
  - rewrite jacobian_block_run in Hrun by assumption.
    cbn [negb andb]. eapply IH. exact Hrun.
Qed.

Lemma discovered_structure (con_list : constraints_arg)
  (x0 : list float) (flags : list bool) (rows cols : list nat) :
  fst (run (_get_sparse_jacobian_structure con_list x0)) =
    Ok (flags, rows, cols) ->
  flags = map (fun con => snd (structure_block x0 con)) (as_tuple con_list)
  /\ rows = stacked_rows 0 (structure_blocks x0 (as_tuple con_list))
  /\ cols = flat_map sparse.col (structure_blocks x0 (as_tuple con_list)).
Proof.
  unfold run, _get_sparse_jacobian_structure, structure_blocks.
  destruct (as_tuple con_list) as [|con rest] eqn:Hcs.
  - cbn. intros [= <- <- <-]. now repeat split.
  - unfold bind.
    destruct (jacobian_blocks 0 (con :: rest) x0 [] [] []) as [[bj|e] tr]
      eqn:Hblocks; [|discriminate].
    assert (Hu : forallb (fun c => negb (has_uncallable_jac c)) (con :: rest)
                 = true).
    { eapply jacobian_blocks_inv. rewrite Hblocks. reflexivity. }
    rewrite jacobian_blocks_run in Hblocks by assumption.
    inversion Hblocks; subst bj tr. clear Hblocks.
    cbn [fst snd app lift].
    destruct (sparse.vstack _) as [J|e] eqn:Hstack; [|discriminate].
    cbn [ret fst]. intros [= <- <- <-].
    unfold sparse.vstack in Hstack. cbn [map] in Hstack.
    apply vstack_from_ok in Hstack as [Hr Hc].
    now repeat split.
Qed.


Lemma length_stacked_rows (blocks : list sparse.coo_array) :
  forall off,
    length (stacked_rows off blocks) =
    list_sum (map (fun B => length (sparse.row B)) blocks).
Proof.
  induction blocks as [|A rest IH]; intro off; [reflexivity|].
  rewrite stacked_rows_cons, length_app, length_map, IH. reflexivity.
Qed.


Lemma ones2_ones_like (p n : nat) :
  np.ones2 p n = np.ones_like (np.ones2 p n).
Proof.
  unfold np.ones2, np.ones_like, np.ones.
  induction p as [|p IH]; [reflexivity|].
  cbn [repeat map]. rewrite <- IH. f_equal.
  clear IH. induction n as [|n IHn]; [reflexivity|].
  cbn [repeat map]. now rewrite <- IHn.
Qed.

(** A single group that declares no Jacobian (['jac'] missing, [None] or
    falsy) is given the full block: every coordinate of [p] rows and [n]
    columns in row-major order, for [p] the group's dimension at the initial
    point and [n] the length of the initial point. *)
Theorem undeclared_jacobian_is_a_full_block (con_list : constraints_arg)
  (con : constraint) (x0 : list float) :
  as_tuple con_list = [con] ->
  group_jacobian con x0 = None ->
  has_uncallable_jac con = false ->
  fst (run (_get_sparse_jacobian_structure con_list x0)) =
    Ok ([false],
        dense_rows (dimension x0 con) (length x0),
        dense_cols (dimension x0 con) (length x0)).
Proof.
  intros Hcs Hnone Hu.
  unfold run, _get_sparse_jacobian_structure. rewrite Hcs. unfold bind.
  rewrite jacobian_blocks_run by (cbn; now rewrite Hu).
  cbn [map app fst snd lift].
  unfold structure_block. rewrite Hnone. cbn [fst snd].
  rewrite vstack_single. cbn [sparse.row sparse.col ret fst].
  unfold sparse.of_dense. cbn [sparse.row sparse.col].
  rewrite ones2_ones_like.
  assert (Hrect : Forall (fun r => length r = length x0)
                         (np.ones2 (dimension x0 con) (length x0))).
  { unfold np.ones2, np.ones. apply Forall_forall. intros r Hin.
    apply repeat_spec in Hin. subst r. apply repeat_length. }
  destruct (nonzero_rows_ones (length x0) _ Hrect 0) as [Hr Hc].
  rewrite Hr, Hc. unfold np.ones2. rewrite repeat_length. reflexivity.
Qed.

Lemma jacobian_loop_values (self : IpoptProblemWrapper) (x : list float)
  (cs : list constraint) :
  forall (i : nat) (acc : list np.value),
    (forall k con,
        nth_error cs k = Some con ->
        exists jac_val,
          call_jac self (closure_of con) x (con_args con) = Ok jac_val
          /\ nth_error (_constraint_jac_is_sparse self) (i + k) =
             Some (is_sparse jac_val)) ->
    jacobian_loop self x i (combine (map closure_of cs) (map con_args cs)) acc =
    Ok (acc ++ map (fun con => np.Vector (called_values self x con)) cs).
Proof.
  induction cs as [|con rest IH]; intros i acc Hall.
  - cbn. now rewrite app_nil_r.
  - cbn [map combine jacobian_loop].
    destruct (Hall 0 con eq_refl) as [jac_val [Hcall Hflag]].
    rewrite Nat.add_0_r in Hflag.
    assert (Hrest : forall k c,
               nth_error rest k = Some c ->
               exists jv,
                 call_jac self (closure_of c) x (con_args c) = Ok jv
                 /\ nth_error (_constraint_jac_is_sparse self) (S i + k) =
                    Some (is_sparse jv)).
    { intros k c Hk. replace (S i + k) with (i + S k) by lia.
      now apply (Hall (S k) c). }
    unfold called_values at 1. rewrite Hcall.
    destruct jac_val as [d|c]; cbn [is_sparse jacobian_values] in *;
      rewrite Hflag; cbn [rbind];
      rewrite (IH (S i) _ Hrest), <- app_assoc; reflexivity.
Qed.

Lemma length_nonzero_rows_ones (rows : list (list float)) :
  forall s,
    length (sparse.nonzero_rows s (np.ones_like rows)) =
    length (np.ravel rows).
Proof.
  unfold np.ravel, np.ones_like.
  induction rows as [|r rows IH]; intro s; [reflexivity|].
  cbn [concat map sparse.nonzero_rows].
  rewrite !length_app, nonzero_row_ones, length_map, length_seq.
  now rewrite (IH (S s)).
Qed.

Lemma length_structure_block_rows (jac_val0 jac_val : jac_value) :
  same_layout jac_val0 jac_val ->
  length (jacobian_values jac_val) =
    length (sparse.row (fst (block_of_jac_val jac_val0)))
  /\ is_sparse jac_val = snd (block_of_jac_val jac_val0).
Proof.
  destruct jac_val0 as [a0|c0], jac_val as [a|c]; cbn; try contradiction.
  - intro Hlen. split; [|reflexivity].
    now rewrite Hlen, length_map, length_nonzero_rows_ones.
  - intro Hlen. now split.
Qed.


(** Structure and values have the same length. For at least one group, all
    with a declared Jacobian that at [x] is of the kind it was at the
    initial point (dense with as many entries, or sparse with as many stored
    values as rows were recorded): on the adapter built with the discovered
    structure, [jacobian(x)] returns the groups' values in declaration
    order, as many as the structure has rows. *)
Theorem jacobian_values_match_the_structure
  (fun_ : objective_fun) (args : list Arg) (kwargs : option kw)
  (hess : option (list float -> list (list float)))
  (hessp : option (list float -> list float -> list float))
  (con_list : constraints_arg) (eps : float) (con_dims : list nat)
  (flags : list bool) (rows cols : list nat)
  (self : IpoptProblemWrapper) (x0 x : list float) :
  as_tuple con_list <> [] ->
  fst (run (_get_sparse_jacobian_structure con_list x0)) =
    Ok (flags, rows, cols) ->
  __init__ fun_ args kwargs hess hessp con_list eps con_dims flags rows cols
    = Ok self ->
  (forall con, In con (as_tuple con_list) ->
     exists jac_val0 jac_val,
       group_jacobian con x0 = Some jac_val0
       /\ group_jacobian con x = Some jac_val
       /\ same_layout jac_val0 jac_val) ->
  exists v,
    jacobian self x = Ok v
    /\ v = concat (map (called_values self x) (as_tuple con_list))
    /\ length v = length rows.
Proof.
  intros Hne Hstructure Hinit Hlayout.
  apply discovered_structure in Hstructure as (Hflags & Hrows & _).
  apply init_ok in Hinit as (_ & _ & _ & Hsp & _ & _ & _ & Ha & _ & Hj & _).
  assert (Hgroup : forall con, In con (as_tuple con_list) ->
             exists jv,
               call_jac self (closure_of con) x (con_args con) = Ok jv
               /\ is_sparse jv = snd (structure_block x0 con)
               /\ length (jacobian_values jv) =
                  length (sparse.row (fst (structure_block x0 con)))).
  { intros con Hin.
    destruct (Hlayout con Hin) as (jv0 & jv & H0 & Hx & Hsame).
    exists jv. unfold structure_block. rewrite H0.
    destruct (length_structure_block_rows jv0 jv Hsame) as [Hlen Hkind].
    split; [now apply call_jac_group_jacobian|]. now split. }
  exists (concat (map (called_values self x) (as_tuple con_list))).
  split; [|split; [reflexivity|]].
  - unfold jacobian. rewrite Hj, Ha.
    rewrite (jacobian_loop_values self x (as_tuple con_list) 0 []).
    + cbn [rbind app]. unfold np.hstack. rewrite map_map. cbn [np.atleast_1d].
      destruct (as_tuple con_list) as [|con rest]; [contradiction|reflexivity].
    + intros k con Hk. cbn [Nat.add].
      destruct (Hgroup con (nth_error_In _ _ Hk)) as (jv & Hcall & Hkind & _).
      exists jv. split; [exact Hcall|].
      rewrite Hsp, Hflags, nth_error_map, Hk. cbn. now rewrite Hkind.
  - rewrite Hrows, length_stacked_rows, length_concat_sum.
    unfold structure_blocks. rewrite !map_map. f_equal.
    apply map_ext_in. intros con Hin.
    destruct (Hgroup con Hin) as (jv & Hcall & _ & Hlen).
    unfold called_values. now rewrite Hcall.
Qed.

(** ** The approximated Jacobians *)

Lemma last_cons {A : Type} (a d : A) (l : list A) :
  last (a :: l) d = last l a.
Proof.
  revert a d. induction l as [|b l IH]; intros a d; [reflexivity|].
  change (last (a :: b :: l) d) with (last (b :: l) d).
  now rewrite (IH b d), (IH b a).
Qed.

(** The variables the lambdas of [_constraint_jacs] read, after
    [__init__]'s loop: [con_fun] holds what the last turn assigned. *)
Lemma init_constraints_closure (cs : list constraint) :
  forall self0 self : IpoptProblemWrapper,
    init_constraints self0 cs = Ok self ->
    con_fun self = last (map (fun con => Some (value_fun con)) cs)
                        (con_fun self0)
    /\ eps self = eps self0.
Proof.
  induction cs as [|con rest IH]; intros self0 self Hinit; simpl in Hinit.
  - inversion Hinit; subst. now split.
  - destruct (init_constraint self0 con) as [self1|e] eqn:Hstep; simpl in Hinit;
      [|discriminate].
    apply init_constraint_ok in Hstep as (-> & _ & _).
    apply IH in Hinit as [Hc He].
    cbn [map]. rewrite last_cons. now split.
Qed.

(** Every Jacobian that is approximated is approximated from the function
    of the last group. On the adapter of a successful [__init__], the entry
    of [_constraint_jacs] for a group without ['jac'] is the lambda around
    [approx_fprime]; called for that group it differentiates the function of
    the last group of the list (with the arguments of the group it is called
    for), not the group's own function: the lambda reads [con_fun] when it is
    called, after the loop has moved on. *)
Theorem approximated_jacobians_use_the_last_function
  (fun_ : objective_fun) (args : list Arg) (kwargs : option kw)
  (hess : option (list float -> list (list float)))
  (hessp : option (list float -> list float -> list float))
  (con_list : constraints_arg) (eps0 : float) (con_dims : list nat)
  (sparse_jacs : list bool) (jac_nnz_row jac_nnz_col : list nat)
  (self : IpoptProblemWrapper) (front : list constraint)
  (final con : constraint) (i : nat)
  (f : list float -> list Arg -> np.value) (x : list float) :
  __init__ fun_ args kwargs hess hessp con_list eps0 con_dims sparse_jacs
           jac_nnz_row jac_nnz_col = Ok self ->
  as_tuple con_list = front ++ [final] ->
  nth_error (as_tuple con_list) i = Some con ->
  con_eval con = ConFun f JacNone ->
  nth_error (_constraint_jacs self) i = Some ApproxFprime
  /\ call_jac self ApproxFprime x (con_args con) =
     Ok (Dense (approx_fprime x (fun y => value_fun final y (con_args con))
                              eps0))
  /\ called_values self x con =
     np.ravel (np.atleast_2d
                 (approx_fprime x (fun y => value_fun final y (con_args con))
                                eps0)).
Proof.
  intros Hinit Hcs Hnth Hcon.
  assert (Hclosure : con_fun self = Some (value_fun final) /\ eps self = eps0).
  { unfold __init__ in Hinit. cbn [SCIPY_INSTALLED negb] in Hinit.
    destruct hessp as [p|]; [discriminate|].
    destruct (match fun_ with Fun g JacNone => _ | _ => _ end) as [fj|e];
      cbn [rbind] in Hinit; [|discriminate].
    apply init_constraints_closure in Hinit as [Hc He].
    rewrite Hcs, map_app in Hc. cbn [map] in Hc. rewrite last_last in Hc.
    now split. }
  destruct Hclosure as [Hc He].
  apply init_ok in Hinit as (_ & _ & _ & _ & _ & _ & _ & _ & _ & Hj & _).
  assert (Hcl : closure_of con = ApproxFprime)
    by (unfold closure_of; now rewrite Hcon).
  assert (Hcall : call_jac self ApproxFprime x (con_args con) =
                  Ok (Dense (approx_fprime x
                               (fun y => value_fun final y (con_args con))
                               eps0)))
    by (unfold call_jac; now rewrite Hc, He).
  split.
  - rewrite Hj, nth_error_map, Hnth. cbn. now rewrite Hcl.
  - split; [exact Hcall|].
    unfold called_values. now rewrite Hcl, Hcall.
Qed.

(** ** Which error comes first *)

(** An unrecognized constraint type is the first thing [minimize_ipopt]
    reports: it raises the [ValueError] carrying the first such type,
    whatever else is wrong with the problem (a [hessp], a bad ['jac'],
    Hessians that do not come together, an option the solver rejects),
    because the bounds are computed before the adapter is built. *)
Theorem unrecognized_type_is_reported_first (fun_ : objective_fun)
  (x0 : np.value) (args : list Arg) (kwargs : option kw)
  (hess : option (list float -> list (list float)))
  (hessp : option (list float -> list float -> list float))
  (bounds : option (list (float * float))) (con_list : constraints_arg)
  (tol : option float) (options : option dict) (bad : constraint) :
  find (fun con => negb (recognized con)) (as_tuple con_list) = Some bad ->
  minimize_ipopt fun_ x0 args kwargs hess hessp bounds con_list tol options
    = Raise (ValueError (con_type bad)).
Proof.
  intro Hfind.
  unfold minimize_ipopt, minimize_ipopt_nlp. cbn [SCIPY_INSTALLED negb].
  destruct (get_bounds bounds) as [lb ub].
  assert (Hprobes : fst (run (probes con_list (np.atleast_1d x0))) =
                    Raise (ValueError (con_type bad))).
  { unfold run, probes, bind, get_constraint_bounds.
    pose proof (get_constraint_bounds_loop_raise (as_tuple con_list) 0
                  (np.atleast_1d x0) INF_default [] [] [] bad Hfind) as Hraise.
    destruct (get_constraint_bounds_loop 0 (as_tuple con_list)
                (np.atleast_1d x0) INF_default [] [] []) as [[clcu|e] tr];
      cbn [fst] in *; [discriminate|congruence]. }
  rewrite Hprobes. reflexivity.
Qed.

(** A Hessian-vector product is refused: when the three probes go through,
    [minimize_ipopt] with a [hessp] raises [NotImplementedError] from the
    adapter's constructor, before any option is looked at and before the
    solver exists. *)
Theorem hessp_is_refused (fun_ : objective_fun)
  (x0 : np.value) (args : list Arg) (kwargs : option kw)
  (hess : option (list float -> list (list float)))
  (hessp : list float -> list float -> list float)
  (bounds : option (list (float * float))) (con_list : constraints_arg)
  (tol : option float) (options : option dict)
  (probed : list float * list float * list nat
            * (list bool * list nat * list nat)) :
  fst (run (probes con_list (np.atleast_1d x0))) = Ok probed ->
  minimize_ipopt fun_ x0 args kwargs hess (Some hessp) bounds con_list tol
                 options =
  Raise (NotImplementedError
           "Using hessian matrix times an arbitrary vector is not yet implemented!").
Proof.
  intro Hprobes.
  unfold minimize_ipopt, minimize_ipopt_nlp. cbn [SCIPY_INSTALLED negb].
  destruct (get_bounds bounds) as [lb ub].
  rewrite Hprobes. cbn [rbind].
  destruct probed as [[[cl cu] con_dims] [[sparse_jacs r] c]].
  reflexivity.
Qed.

End Interface.


Arguments Fun {Arg} f jac.
Arguments FunWithGrad {Arg} f.
Arguments ConFun {Arg} f jac.
Arguments ConFunWithJac {Arg} f.
Arguments Build_constraint {Arg} con_eval con_args con_hess con_kwargs con_type.
Arguments con_hess {Arg} c.
Arguments con_type {Arg} c.
Arguments OneDict {Arg} con.
Arguments Sequence {Arg} cs.
Arguments as_tuple {Arg} constraints.
Arguments get_constraint_dimensions {Arg} constraints x0 _.
Arguments get_constraint_bounds {Arg} constraints x0 INF _.
Arguments _get_sparse_jacobian_structure {Arg} constraints x0 _.
Arguments probes {Arg} constraints _x0 _.
Arguments __init__ {Arg} approx_fprime fun_ args kwargs hess hessp constraints
  eps con_dims sparse_jacs jac_nnz_row jac_nnz_col.
Arguments constraints {Arg} self x.
Arguments jacobianstructure {Arg} self.
Arguments jacobian {Arg} approx_fprime self x.
Arguments hessian {Arg} self x lagrange obj_factor.
Arguments invoke {Arg} approx_fprime self c.
Arguments invoke_all {Arg} approx_fprime self calls.
Arguments nfev {Arg} i.
Arguments njev {Arg} i.
Arguments nlp_problem_obj {Arg} p.
Arguments minimize_ipopt_nlp {Arg} approx_fprime add_option_accepts fun_ x0 args
  kwargs hess hessp bounds constraints tol options.
Arguments minimize_ipopt {Arg} approx_fprime add_option_accepts nlp_solve fun_ x0
  args kwargs hess hessp bounds constraints tol options.
Arguments hessian_mismatch {Arg H} hess cs.
Arguments group_value {Arg} con x.
Arguments dimension {Arg} x con.
Arguments has_callable_jac {Arg} con.
Arguments one_step_solver {Arg} nlp options x0.
Arguments sum_of_squares {Arg} x _ _.
Arguments sum_of_squares_jac {Arg} x _ _.
Arguments no_curvature {Arg} _ _ _.
Arguments on_the_line {Arg}.
Arguments on_the_line_plain {Arg}.
Arguments nonnegative {Arg}.
Arguments nonnegative_callable {Arg}.
Arguments positive_part {Arg}.
Arguments nonnegative_sparse {Arg}.
Arguments same_sign {Arg}.
Arguments _constraint_jacs {Arg} i.
Arguments call_jac {Arg} approx_fprime self j x a.
Arguments called_values {Arg} approx_fprime self x con.
Arguments structure_block {Arg} x0 con.
Arguments structure_blocks {Arg} x0 cs.
Arguments value_fun {Arg} con.
Arguments nlp_n {Arg} p.
Arguments nlp_m {Arg} p.
Arguments nlp_cl {Arg} p.
Arguments nlp_cu {Arg} p.
Arguments _constraint_dims {Arg} i.
Arguments recognized {Arg} con.
Arguments con_jac_accepted {Arg} con.
Arguments obj_jac_accepted {Arg} fun_.
Arguments con_args {Arg} c.

(** ** Worked instances

    The theorems above at the sample problems, with no extra arguments
    ([Arg] is [unit]), forward differences for [approx_fprime] and the
    one-step solver. *)

(** C1 as stated fails: a group's value may have another length at [x] than
    at the initial point. For [x[x > 0]] probed at [[1, 1]] the discovered
    dimension is 2, and [constraints([1, -1])] has length 1. *)
Lemma constraints_length_follows_x :
  fst (run (get_constraint_dimensions (Arg := unit)
              (Sequence [positive_part]) [1; 1]%float)) = Ok [2]
  /\ (self <- __init__ (Arg := unit) forward_difference
                (Fun sum_of_squares JacNone) [] None None None
                (Sequence [positive_part]) float_1e_8 [2] [false]
                [0; 0] [0; 1] ;;
      constraints self [1; -1]%float)%result = Ok [1%float]
  /\ length [1%float] <> list_sum [2].
Proof.
  split; [reflexivity|]. split; [reflexivity|]. discriminate.
Qed.

(** The stacked vector of two groups, of dimensions 1 and 2. *)
Lemma constraints_stack_in_order_witness :
  exists self,
    __init__ (Arg := unit) forward_difference
             (Fun sum_of_squares JacNone) [] None
             (Some sum_of_squares_hess) None
             (Sequence [on_the_line; nonnegative]) float_1e_8 [1; 2]
             [false; false] [0; 0; 1; 1; 2; 2] [0; 1; 0; 1; 0; 1] = Ok self
    /\ exists v,
         constraints self [0.5; 0.25]%float = Ok v
         /\ v = [-0.25; 0.5; 0.25]%float
         /\ length v = 3
         /\ forall (i : nat) (con : constraint unit),
              nth_error [on_the_line; nonnegative] i = Some con ->
              np.slice (offset [1; 2] i) (offset [1; 2] (S i)) v =
              np.atleast_1d (group_value con [0.5; 0.25]%float).
Proof.
  eexists. split; [reflexivity|].
  apply (constraints_stack_in_order unit forward_difference
           (Fun sum_of_squares JacNone) [] None (Some sum_of_squares_hess) None
           (Sequence [on_the_line; nonnegative]) float_1e_8
           [false; false] [0; 0; 1; 1; 2; 2] [0; 1; 0; 1; 0; 1] _
           [2; 2]%float [0.5; 0.25]%float [1; 2]).
  - discriminate.
  - intros con [<-|[<-|[]]]; reflexivity.
  - reflexivity.
  - reflexivity.
Defined.

(** A single group given as one dictionary, with a 2 x 2 Jacobian that has
    zero entries. *)
Lemma dense_jacobian_structure_and_values_witness :
  exists self,
    __init__ (Arg := unit) forward_difference
             (Fun sum_of_squares JacNone) [] None None None
             (OneDict nonnegative_callable) float_1e_8 [2] [false]
             [0; 0; 1; 1] [0; 1; 0; 1] = Ok self
    /\ fst (run (_get_sparse_jacobian_structure (Arg := unit)
                   (OneDict nonnegative_callable) [2; 2]%float)) =
       Ok ([false], [0; 0; 1; 1], [0; 1; 0; 1])
    /\ jacobianstructure self = ([0; 0; 1; 1], [0; 1; 0; 1])
    /\ jacobian forward_difference self [0.5; 0.25]%float =
       Ok [1; 0; 0; 1]%float.
Proof.
  eexists. split; [reflexivity|].
  match goal with
  | |- context [jacobianstructure ?self] =>
      destruct (dense_jacobian_structure_and_values unit forward_difference
                  (Fun sum_of_squares JacNone) [] None None None
                  (OneDict nonnegative_callable) nonnegative_callable
                  float_1e_8 [2] self [2; 2]%float [0.5; 0.25]%float 2 2
                  [[1; 0]; [0; 1]]%float [[1; 0]; [0; 1]]%float
                  eq_refl eq_refl
                  ltac:(split; [reflexivity | repeat constructor])
                  eq_refl
                  ltac:(split; [reflexivity | repeat constructor]))
        as [Hstructure Hvalues]
  end.
  destruct (Hvalues eq_refl) as (Hs & Hj & _).
  split; [exact Hstructure|]. split; [exact Hs | exact Hj].
Defined.


(** C4 as stated fails: [__init__] also raises [NotImplementedError] for a
    ['jac'] that is neither a bool nor a callable (here a truthy object such
    as the string ['2-point'], on a problem without constraints and without
    any Hessian). *)
Lemma init_raises_without_hessian_mismatch :
  __init__ (Arg := unit) forward_difference
           (Fun sum_of_squares (JacObject true)) [] None None None
           (Sequence []) float_1e_8 [] [] [] [] =
    Raise (NotImplementedError "jac has to be bool or a function")
  /\ hessian_mismatch (Arg := unit)
                      (@None (list float -> list (list float))) [] = false.
Proof. split; reflexivity. Qed.

(** The objective has a Hessian and the second group has none: the
    constructor raises. *)
Lemma init_raises_iff_hessian_mismatch_witness :
  ((exists msg,
       __init__ (Arg := unit) forward_difference
                (Fun sum_of_squares JacNone) [] None
                (Some sum_of_squares_hess) None
                (Sequence [on_the_line; nonnegative_callable]) float_1e_8
                [1; 2] [false; false] [] [] = Raise (NotImplementedError msg))
   <-> hessian_mismatch (Arg := unit) (Some sum_of_squares_hess)
                        [on_the_line; nonnegative_callable] = true)
  /\ (hessian_mismatch (Arg := unit) (Some sum_of_squares_hess)
                       [on_the_line; nonnegative_callable] = false ->
      exists self,
        __init__ (Arg := unit) forward_difference
                 (Fun sum_of_squares JacNone) [] None
                 (Some sum_of_squares_hess) None
                 (Sequence [on_the_line; nonnegative_callable]) float_1e_8
                 [1; 2] [false; false] [] [] = Ok self).
Proof.
  exact (init_raises_iff_hessian_mismatch unit forward_difference
           (Fun sum_of_squares JacNone) [] None (Some sum_of_squares_hess)
           (Sequence [on_the_line; nonnegative_callable]) float_1e_8 [1; 2]
           [false; false] [] [] eq_refl eq_refl).
Defined.

(** C5 on the code: with no constraints the bound arrays are empty, but
    [constraints(x)] raises instead of returning an empty vector. *)
Lemma constraints_of_unconstrained_problem_raises :
  (self <- __init__ (Arg := unit) forward_difference
                    (Fun sum_of_squares JacNone) [] None None None
                    (Sequence []) float_1e_8 [] [] [] [] ;;
   constraints self [2; 2]%float)%result =
    Raise (ValueError "need at least one array to concatenate")
  /\ fst (run (get_constraint_bounds (Arg := unit) (Sequence [])
                                     [2; 2]%float INF_default)) = Ok ([], []).
Proof. split; reflexivity. Qed.

(** C8 as stated fails: a group without a callable Jacobian has its function
    called three times at the initial point, once by each probe. *)
Lemma probes_call_a_function_three_times :
  snd (run (probes (Arg := unit) (Sequence [positive_part]) [1; 1]%float)) =
    [CallFun 0 [1; 1]%float; CallFun 0 [1; 1]%float; CallFun 0 [1; 1]%float]
  /\ fun_calls 0 (snd (run (probes (Arg := unit) (Sequence [positive_part])
                                   [1; 1]%float))) = 3.
Proof. split; reflexivity. Qed.

(** A group with a callable Jacobian: its function is called twice and its
    Jacobian once. *)
Lemma probes_call_each_function_per_pass_witness :
  fun_calls 0 (snd (run (probes (Arg := unit)
                           (Sequence [on_the_line; positive_part])
                           [1; 1]%float))) = 2
  /\ jac_calls 0 (snd (run (probes (Arg := unit)
                              (Sequence [on_the_line; positive_part])
                              [1; 1]%float))) = 1
  /\ Forall (fun ev => event_point ev = [1; 1]%float)
            (snd (run (probes (Arg := unit)
                         (Sequence [on_the_line; positive_part])
                         [1; 1]%float))).
Proof.
  exact (probes_call_each_function_per_pass unit
           (Sequence [on_the_line; positive_part]) [1; 1]%float 0 on_the_line
           eq_refl eq_refl eq_refl).
Defined.

(** Two objective calls and one gradient call among five. *)
Lemma counters_count_and_structure_is_fixed_witness :
  exists self,
    __init__ (Arg := unit) forward_difference
             (Fun sum_of_squares (JacFun sum_of_squares_jac))
             [] None None None (Sequence []) float_1e_8 [] [] [] [] = Ok self
    /\ nfev (invoke_all forward_difference self
               [Objective [2; 2]%float; Constraints [2; 2]%float;
                Gradient [2; 2]%float; Intermediate 1;
                Objective [1; 1]%float]) = 2%Z
    /\ njev (invoke_all forward_difference self
               [Objective [2; 2]%float; Constraints [2; 2]%float;
                Gradient [2; 2]%float; Intermediate 1;
                Objective [1; 1]%float]) = 1%Z.
Proof.
  eexists. split; [reflexivity|].
  destruct (counters_count_and_structure_is_fixed unit forward_difference
              (Fun sum_of_squares (JacFun sum_of_squares_jac)) [] None None
              None (Sequence []) float_1e_8 [] [] [] [] _
              [Objective [2; 2]%float; Constraints [2; 2]%float;
               Gradient [2; 2]%float; Intermediate 1; Objective [1; 1]%float]
              [] eq_refl)
    as (_ & Hf & Hj & _).
  split; [exact Hf | exact Hj].
Defined.

(** No Hessian anywhere and no option from the caller: the quasi-Newton
    approximation is registered. *)
Lemma limited_memory_iff_no_hessian_witness :
  exists nlp registered,
    minimize_ipopt_nlp (Arg := unit) forward_difference accept_all
      (Fun sum_of_squares JacNone) (np.Vector [2; 2]%float) [] None None None
      None (Sequence [on_the_line_plain]) None None = Ok (nlp, registered)
    /\ dict_get (Bytes "hessian_approximation") registered =
       Some (PyBytes "limited-memory").
Proof.
  eexists. eexists. split; [reflexivity|].
  destruct (limited_memory_iff_no_hessian unit forward_difference accept_all
              (Fun sum_of_squares JacNone) (np.Vector [2; 2]%float) [] None
              None None None (Sequence [on_the_line_plain]) None None _ _
              eq_refl) as [Hunset _].
  destruct (Hunset eq_refl) as [[_ Hif] _].
  apply Hif. split; [reflexivity|].
  intros con [<-|[]]. reflexivity.
Defined.

(** A scalar starting point: the result's [x] is a scalar. *)
Lemma result_point_follows_x0_witness :
  exists res,
    minimize_ipopt (Arg := unit) forward_difference accept_all
      one_step_solver (Fun sum_of_squares JacNone) (np.Scalar 3%float) []
      None None None None (Sequence []) None None = Ok res
    /\ res_x res = np.Scalar 3%float.
Proof.
  eexists. split; [reflexivity|].
  destruct (result_point_follows_x0 unit forward_difference accept_all
              one_step_solver (Fun sum_of_squares JacNone) (np.Scalar 3%float)
              [] None None None None (Sequence []) None None _ eq_refl)
    as (nlp & registered & Hnlp & x_0 & rest & Hx & Hres).
  rewrite Hres. f_equal.
  inversion Hnlp; subst. cbn in Hx. now inversion Hx.
Defined.

(** *** Further instances *)

(** A problem with two groups of dimensions 1 and 2 in two variables. *)
Lemma solver_sizes_agree_witness :
  exists nlp registered,
    minimize_ipopt_nlp (Arg := unit) forward_difference accept_all
      (Fun sum_of_squares JacNone) (np.Vector [2; 2]%float) [] None None None
      None (Sequence [on_the_line_plain; nonnegative_callable]) None None
      = Ok (nlp, registered)
    /\ nlp_n nlp = 2
    /\ nlp_m nlp = 3
    /\ length (nlp_cl nlp) = 3
    /\ length (nlp_cu nlp) = 3.
Proof.
  eexists. eexists. split; [reflexivity|].
  destruct (solver_sizes_agree unit forward_difference accept_all
              (Fun sum_of_squares JacNone) (np.Vector [2; 2]%float) [] None
              None None None
              (Sequence [on_the_line_plain; nonnegative_callable]) None None
              _ _ eq_refl) as (Hn & Hd & Hm & Hcl & Hcu).
  rewrite Hcl, Hcu, Hm, Hd, Hn. repeat split; reflexivity.
Defined.

(** The unconstrained problem is accepted. *)
Lemma result_needs_accepted_configuration_witness :
  exists res,
    minimize_ipopt (Arg := unit) forward_difference accept_all
      one_step_solver (Fun sum_of_squares JacNone) (np.Vector [2; 2]%float)
      [] None None None None (Sequence []) None None = Ok res
    /\ obj_jac_accepted (Arg := unit) (Fun sum_of_squares JacNone) = true
    /\ forallb (fun kv => accept_all (fst kv) (snd kv))
               (ipopt_options (@None (list float -> list (list float)))
                              (@None (list float -> list float -> list float))
                              None None) = true.
Proof.
  eexists. split; [reflexivity|].
  destruct (result_needs_accepted_configuration unit forward_difference
              accept_all one_step_solver (Fun sum_of_squares JacNone)
              (np.Vector [2; 2]%float) [] None None None None (Sequence [])
              None None _ eq_refl) as (_ & Hobj & _ & _ & _ & Hopts).
  split; [exact Hobj | exact Hopts].
Defined.

(** The one-step solver: one objective call, one gradient call, iteration
    count 1. *)
Lemma result_reports_the_solver_run_witness :
  exists res,
    minimize_ipopt (Arg := unit) forward_difference accept_all
      one_step_solver (Fun sum_of_squares JacNone) (np.Vector [2; 2]%float)
      [] None None None None (Sequence []) None None = Ok res
    /\ res_nfev res = 1%Z
    /\ res_njev res = 1%Z
    /\ res_nit res = 1%Z.
Proof.
  eexists. split; [reflexivity|].
  destruct (result_reports_the_solver_run unit forward_difference accept_all
              one_step_solver (Fun sum_of_squares JacNone)
              (np.Vector [2; 2]%float) [] None None None None (Sequence [])
              None None _ eq_refl)
    as (nlp & registered & calls & x & inf & _ & Hsolve & Hf & Hj & Hi & _).
  unfold one_step_solver in Hsolve. inversion Hsolve; subst calls.
  rewrite Hf, Hj, Hi. repeat split; reflexivity.
Defined.

(** Three values for two variables. *)
Lemma hessian_returns_a_triangle_witness :
  exists self v,
    __init__ (Arg := unit) forward_difference
             (Fun sum_of_squares JacNone) [] None
             (Some sum_of_squares_hess) None (Sequence [on_the_line])
             float_1e_8 [1] [false] [0; 0] [0; 1] = Ok self
    /\ hessian self [2; 2]%float [3%float] 0.5%float = Ok v
    /\ 2 * length v = 2 * 3.
Proof.
  eexists. exists [1; 0; 1]%float. split; [reflexivity|].
  match goal with
  | |- hessian ?self _ _ _ = _ /\ _ =>
      split; [reflexivity|];
      exact (hessian_returns_a_triangle unit self [2; 2]%float [3%float]
               0.5%float [1; 0; 1]%float eq_refl)
  end.
Defined.

(** The unconstrained problem without a Hessian. *)
Lemma hessian_needs_objective_hessian_witness :
  exists self,
    __init__ (Arg := unit) forward_difference
             (Fun sum_of_squares JacNone) [] None None None (Sequence [])
             float_1e_8 [] [] [] [] = Ok self
    /\ hessian self [2; 2]%float [] 1%float =
       Raise (TypeError "'NoneType' object is not callable").
Proof.
  eexists. split; [reflexivity|].
  exact (hessian_needs_objective_hessian unit forward_difference
           (Fun sum_of_squares JacNone) [] None None (Sequence []) float_1e_8
           [] [] [] [] _ [2; 2]%float [] 1%float eq_refl).
Defined.

(** The adapter built as [IpoptProblemWrapper(fun, constraints=[con])]. *)
Lemma jacobian_needs_sparse_flags_witness :
  exists self,
    __init__ (Arg := unit) forward_difference
             (Fun sum_of_squares JacNone) [] None None None
             (Sequence [on_the_line_plain]) float_1e_8 [] [] [] [] = Ok self
    /\ jacobian forward_difference self [2; 2]%float =
       Raise (IndexError "index out of range").
Proof.
  eexists. split; [reflexivity|].
  apply (jacobian_needs_sparse_flags unit forward_difference
           (Fun sum_of_squares JacNone) [] None None None
           (Sequence [on_the_line_plain]) float_1e_8 [] [] [] _
           [2; 2]%float).
  - discriminate.
  - reflexivity.
Defined.


(** One constraint in two variables, no Jacobian given: one full row. *)
Lemma undeclared_jacobian_is_a_full_block_witness :
  fst (run (_get_sparse_jacobian_structure (Arg := unit)
              (OneDict on_the_line_plain) [2; 2]%float)) =
  Ok ([false], [0; 0], [0; 1]).
Proof.
  exact (undeclared_jacobian_is_a_full_block unit
           (OneDict on_the_line_plain) on_the_line_plain [2; 2]%float
           eq_refl eq_refl eq_refl).
Defined.

(** A dense and a sparse group: four values for four coordinates. *)
Lemma jacobian_values_match_the_structure_witness :
  exists self,
    __init__ (Arg := unit) forward_difference
             (Fun sum_of_squares JacNone) [] None
             (Some sum_of_squares_hess) None
             (Sequence [on_the_line; nonnegative_sparse]) float_1e_8 [1; 2]
             [false; true] [0; 0; 1; 2] [0; 1; 0; 1] = Ok self
    /\ exists v,
         jacobian forward_difference self [0.5; 0.25]%float = Ok v
         /\ v = [1; 1; 1; 1]%float
         /\ length v = length [0; 0; 1; 2].
Proof.
  eexists. split; [reflexivity|].
  apply (jacobian_values_match_the_structure unit forward_difference
           (Fun sum_of_squares JacNone) [] None (Some sum_of_squares_hess)
           None (Sequence [on_the_line; nonnegative_sparse]) float_1e_8
           [1; 2] [false; true] [0; 0; 1; 2] [0; 1; 0; 1] _
           [2; 2]%float [0.5; 0.25]%float).
  - discriminate.
  - reflexivity.
  - reflexivity.
  - intros con [<-|[<-|[]]]; eexists; eexists;
      (split; [reflexivity|]); (split; [reflexivity|]); reflexivity.
Defined.

(** Two groups without Jacobians: the Jacobian of the first, [x1 + x2 - 1],
    is approximated from the function of the second, [x1 * x2]. *)
Lemma approximated_jacobians_use_the_last_function_witness :
  exists self,
    __init__ (Arg := unit) forward_difference
             (Fun sum_of_squares JacNone) [] None None None
             (Sequence [on_the_line_plain; same_sign]) float_1e_8 [1; 1]
             [false; false] [0; 0; 1; 1] [0; 1; 0; 1] = Ok self
    /\ nth_error (_constraint_jacs self) 0 = Some (ApproxFprime unit)
    /\ call_jac forward_difference self (ApproxFprime unit) [2; 2]%float [] =
       Ok (Dense (forward_difference [2; 2]%float
                    (fun y => value_fun (Arg := unit) same_sign y [])
                    float_1e_8)).
Proof.
  eexists. split; [reflexivity|].
  destruct (approximated_jacobians_use_the_last_function unit
              forward_difference (Fun sum_of_squares JacNone) [] None None
              None (Sequence [on_the_line_plain; same_sign]) float_1e_8
              [1; 1] [false; false] [0; 0; 1; 1] [0; 1; 0; 1] _
              [on_the_line_plain] same_sign on_the_line_plain 0 _
              [2; 2]%float eq_refl eq_refl eq_refl eq_refl)
    as (Hentry & Hcall & _).
  split; [exact Hentry | exact Hcall].
Defined.

(** A type ['le'], on a problem that also asks for a [hessp]. *)
Lemma unrecognized_type_is_reported_first_witness :
  minimize_ipopt (Arg := unit) forward_difference accept_all one_step_solver
    (Fun sum_of_squares JacNone) (np.Vector [2; 2]%float) [] None None
    (Some (fun _ p => p)) None
    (Sequence [on_the_line_plain;
               {| con_eval := ConFun (fun x _ => np.Vector x) JacNone;
                  con_args := [];
                  con_hess := None;
                  con_kwargs := [];
                  con_type := "le" |}]) None None =
  Raise (ValueError "le").
Proof.
  exact (unrecognized_type_is_reported_first unit forward_difference
           accept_all one_step_solver (Fun sum_of_squares JacNone)
           (np.Vector [2; 2]%float) [] None None (Some (fun _ p => p)) None
           (Sequence [on_the_line_plain;
                      {| con_eval := ConFun (fun x _ => np.Vector x) JacNone;
                         con_args := [];
                         con_hess := None;
                         con_kwargs := [];
                         con_type := "le" |}]) None None _ eq_refl).
Defined.

(** The unconstrained problem with a [hessp]. *)
Lemma hessp_is_refused_witness :
  minimize_ipopt (Arg := unit) forward_difference accept_all one_step_solver
    (Fun sum_of_squares JacNone) (np.Vector [2; 2]%float) [] None None
    (Some (fun _ p => p)) None (Sequence []) None None =
  Raise (NotImplementedError
           "Using hessian matrix times an arbitrary vector is not yet implemented!").
Proof.
  exact (hessp_is_refused unit forward_difference accept_all one_step_solver
           (Fun sum_of_squares JacNone) (np.Vector [2; 2]%float) [] None None
           (fun _ p => p) None (Sequence []) None None _ eq_refl).
Defined.
